(** * vssource: the index cache of [ExternalIndexer]

    A shallow embedding of [src/vssource/indexers/base.py] and the
    properties of its index cache: content identity, index paths, the
    reuse / rebuild decision, process failure and corrupted indexes.

    Python [str] values are held as Rocq strings of their UTF-8 bytes, so
    that [str.encode()] is the identity on the bytes and the code-point
    order of [str] is the bytewise order. *)

From Stdlib Require Import NArith Strings.Ascii Strings.String Strings.Byte OrdersEx.
From stdpp Require Import gmap strings list sorting lexico.

Local Open Scope string_scope.
Local Open Scope list_scope.

(** ** MD5 (RFC 1321), as [hashlib.md5] computes it *)

Module MD5.
Local Open Scope N_scope.

Definition mask32 (x : N) : N := N.land x 0xFFFFFFFF.
Definition not32 (x : N) : N := N.lxor x 0xFFFFFFFF.
Definition rotl32 (x c : N) : N :=
  mask32 (N.lor (N.shiftl x c) (N.shiftr x (32 - c))).

Definition K : list N :=
  [ 0xd76aa478; 0xe8c7b756; 0x242070db; 0xc1bdceee;
    0xf57c0faf; 0x4787c62a; 0xa8304613; 0xfd469501;
    0x698098d8; 0x8b44f7af; 0xffff5bb1; 0x895cd7be;
    0x6b901122; 0xfd987193; 0xa679438e; 0x49b40821;
    0xf61e2562; 0xc040b340; 0x265e5a51; 0xe9b6c7aa;
    0xd62f105d; 0x02441453; 0xd8a1e681; 0xe7d3fbc8;
    0x21e1cde6; 0xc33707d6; 0xf4d50d87; 0x455a14ed;
    0xa9e3e905; 0xfcefa3f8; 0x676f02d9; 0x8d2a4c8a;
    0xfffa3942; 0x8771f681; 0x6d9d6122; 0xfde5380c;
    0xa4beea44; 0x4bdecfa9; 0xf6bb4b60; 0xbebfbc70;
    0x289b7ec6; 0xeaa127fa; 0xd4ef3085; 0x04881d05;
    0xd9d4d039; 0xe6db99e5; 0x1fa27cf8; 0xc4ac5665;
    0xf4292244; 0x432aff97; 0xab9423a7; 0xfc93a039;
    0x655b59c3; 0x8f0ccc92; 0xffeff47d; 0x85845dd1;
    0x6fa87e4f; 0xfe2ce6e0; 0xa3014314; 0x4e0811a1;
    0xf7537e82; 0xbd3af235; 0x2ad7d2bb; 0xeb86d391 ].

Definition R : list N :=
  [ 7; 12; 17; 22; 7; 12; 17; 22; 7; 12; 17; 22; 7; 12; 17; 22;
    5;  9; 14; 20; 5;  9; 14; 20; 5;  9; 14; 20; 5;  9; 14; 20;
    4; 11; 16; 23; 4; 11; 16; 23; 4; 11; 16; 23; 4; 11; 16; 23;
    6; 10; 15; 21; 6; 10; 15; 21; 6; 10; 15; 21; 6; 10; 15; 21 ].

(** [n.to_bytes(k, 'little')], without the range check. *)
Fixpoint le_bytes (k : nat) (n : N) : list N :=
  match k with
  | O => []
  | S k' => n mod 256 :: le_bytes k' (n / 256)
  end.

Fixpoint of_le_bytes (bs : list N) : N :=
  match bs with
  | [] => 0
  | b :: bs' => b + 256 * of_le_bytes bs'
  end.

Definition pad (msg : list N) : list N :=
  let len := length msg in
  let zeros := ((119 - len mod 64) mod 64)%nat in
  msg ++ [0x80] ++ repeat 0 zeros ++ le_bytes 8 (8 * N.of_nat len).

(** Cuts a list into runs of [k] elements; [n] bounds the number of runs. *)
Fixpoint chunks {A} (n k : nat) (l : list A) : list (list A) :=
  match n with
  | O => []
  | S n' =>
      match l with
      | [] => []
      | _ => take k l :: chunks n' k (drop k l)
      end
  end.

Definition words (block : list N) : list N :=
  of_le_bytes <$> chunks 16 4 block.

Definition state : Type := N * N * N * N.

Definition step (M : list N) (st : state) (i : nat) : state :=
  let '(a, b, c, d) := st in
  let '(f, g) :=
    if (i <? 16)%nat then
      (N.lor (N.land b c) (N.land (not32 b) d), i)
    else if (i <? 32)%nat then
      (N.lor (N.land d b) (N.land (not32 d) c), ((5 * i + 1) mod 16)%nat)
    else if (i <? 48)%nat then
      (N.lxor b (N.lxor c d), ((3 * i + 5) mod 16)%nat)
    else
      (N.lxor c (N.lor b (not32 d)), ((7 * i) mod 16)%nat) in
  let f' := mask32 (f + a + nth i K 0 + nth g M 0) in
  (d, mask32 (b + rotl32 f' (nth i R 0)), b, c).

Definition block_step (st : state) (block : list N) : state :=
  let '(a0, b0, c0, d0) := st in
  let '(a, b, c, d) := foldl (step (words block)) st (seq 0 64) in
  (mask32 (a0 + a), mask32 (b0 + b), mask32 (c0 + c), mask32 (d0 + d)).

Definition init : state := (0x67452301, 0xefcdab89, 0x98badcfe, 0x10325476).

Definition digest (msg : list N) : list N :=
  let padded := pad msg in
  let '(a, b, c, d) :=
    foldl block_step init (chunks (length padded) 64 padded) in
  le_bytes 4 a ++ le_bytes 4 b ++ le_bytes 4 c ++ le_bytes 4 d.

Definition hex_digit (n : N) : ascii :=
  ascii_of_N (if n <? 10 then 48 + n else 87 + n).

Fixpoint hex (bs : list N) : string :=
  match bs with
  | [] => EmptyString
  | b :: bs' => String (hex_digit (b / 16)) (String (hex_digit (b mod 16)) (hex bs'))
  end.

(** [md5(data).hexdigest()] *)
Definition hexdigest (data : list byte) : string :=
  hex (digest (Byte.to_N <$> data)).
End MD5.

(** ** Python [str] operations used by the indexer *)

Module Str.
(** [sep.join(parts)] *)
Fixpoint join (sep : string) (parts : list string) : string :=
  match parts with
  | [] => EmptyString
  | [s] => s
  | s :: rest => s +:+ sep +:+ join sep rest
  end.

(** [s.split(sep)] for a one-character separator; [cur] is the field
    being read, reversed. *)
Fixpoint split_go (sep : ascii) (cur : string) (s : string) : list string :=
  match s with
  | EmptyString => [String.rev cur]
  | String c s' =>
      if Ascii.eqb c sep then String.rev cur :: split_go sep EmptyString s'
      else split_go sep (String c cur) s'
  end.

Definition split (sep : ascii) (s : string) : list string :=
  split_go sep EmptyString s.

(** [s.rfind(c)]: the index of the last [c], [None] for Python's [-1]. *)
Fixpoint rfind (c : ascii) (s : string) : option nat :=
  match s with
  | EmptyString => None
  | String d s' =>
      match rfind c s' with
      | Some i => Some (S i)
      | None => if Ascii.eqb d c then Some 0 else None
      end
  end.

(** The ASCII characters for which [str.isspace()] holds. *)
Definition is_space (c : ascii) : bool :=
  let n := N_of_ascii c in
  ((9 <=? n) && (n <=? 13) || (28 <=? n) && (n <=? 32))%N.

Fixpoint lstrip (s : string) : string :=
  match s with
  | String c s' => if is_space c then lstrip s' else s
  | EmptyString => EmptyString
  end.

(** [s.strip()] *)
Definition strip (s : string) : string :=
  String.rev (lstrip (String.rev (lstrip s))).

(** Truth value of a [str]: non-empty. *)
Definition truthy (s : string) : bool :=
  match s with EmptyString => false | _ => true end.

Definition startswith (c : ascii) (s : string) : bool :=
  match s with String d _ => Ascii.eqb d c | EmptyString => false end.
End Str.

(** ** Paths

    An [SPath] is held as pathlib's [parts] tuple of a POSIX path: the
    components in order, the first being ["/"] when the path is absolute.
    Paths name their files directly: no symbolic links, no [..]. *)

Abbreviation SPath := (list string).

Module Path.
Definition sep : ascii := "/"%char.
Definition root : string := "/".

(** [SPath(s)] for a [str]: empty and ["."] components are dropped. *)
Definition of_str (s : string) : SPath :=
  let comps :=
    filter (λ c, c ≠ EmptyString ∧ c ≠ ".") (Str.split sep s) in
  if Str.startswith sep s then root :: comps else comps.

(** [str(p)], which is also [p.to_str()] *)
Definition to_str (p : SPath) : string :=
  match p with
  | [] => "."
  | a :: rest =>
      if String.eqb a root then root +:+ Str.join root rest
      else Str.join root p
  end.

Definition is_anchor (p : SPath) : bool :=
  match p with
  | [a] => String.eqb a root
  | _ => false
  end.

(** [p.name]: the last component, empty for the root and for ["."] *)
Definition name (p : SPath) : string :=
  if is_anchor p then EmptyString else List.last p EmptyString.

(** [p.parent]: the root is its own parent *)
Definition parent (p : SPath) : SPath :=
  if is_anchor p then p else removelast p.

(** [p / s] for a [str]: an absolute right-hand side replaces [p]. *)
Definition truediv (p : SPath) (s : string) : SPath :=
  if Str.startswith sep s then of_str s else p ++ of_str s.

(** Index of the dot that starts the suffix of a file name:
    [i = name.rfind('.')] when [0 < i < len(name) - 1]. *)
Definition suffix_at (nm : string) : option nat :=
  match Str.rfind "."%char nm with
  | Some i =>
      if (0 <? i)%nat && (i <? String.length nm - 1)%nat then Some i else None
  | None => None
  end.

(** [p.stem] *)
Definition stem (p : SPath) : string :=
  let nm := name p in
  match suffix_at nm with
  | Some i => String.substring 0 i nm
  | None => nm
  end.

(** [p.with_suffix(suffix)]; [None] stands for the [ValueError] pathlib
    raises on an invalid suffix or an empty name. *)
Definition with_suffix (p : SPath) (suffix : string) : option SPath :=
  let nm := name p in
  if existsb (Ascii.eqb sep) (list_ascii_of_string suffix) then None
  else if Str.truthy suffix && negb (Str.startswith "."%char suffix)
          || String.eqb suffix "." then None
  else if negb (Str.truthy nm) then None
  else
    let nm' :=
      match suffix_at nm with
      | Some i => String.substring 0 i nm +:+ suffix
      | None => nm +:+ suffix
      end in
    Some (removelast p ++ [nm']).

(** Modelled from the spec: [SPath.get_folder] is vstools' and not part
    of the sources; the spec has it as the parent directory of a file. *)
Definition get_folder (p : SPath) : SPath := parent p.
End Path.

(** Paths compare as their [parts] tuples do: lexicographically, each
    component by code point. *)
#[global] Instance string_lexico : Lexico string := strict String.le.

#[global] Instance string_lexico_po : StrictOrder (@lexico string _).
Proof. unfold lexico, string_lexico. apply _. Qed.

#[global] Instance string_lexico_trichotomy : TrichotomyT (@lexico string _).
Proof.
  intros s1 s2. unfold lexico, string_lexico.
  destruct (decide (s1 = s2)) as [Heq | Hne]; [left; right; exact Heq |].
  destruct (decide (String.le s1 s2)) as [Hle | Hnle].
  - left; left. split; [exact Hle |].
    intros Hle'. apply Hne. by apply (anti_symm String.le).
  - right. destruct (total String.le s1 s2) as [? | Hle]; [done |].
    split; [exact Hle | exact Hnle].
Defined.

Definition path_lt : relation SPath := lexico.

(** [a <= b] as the sort sees it: not [b < a] *)
Definition path_le (a b : SPath) : Prop := ¬ path_lt b a.

#[global] Instance path_le_dec : RelDecision path_le.
Proof. intros a b. unfold path_le, path_lt. apply _. Defined.

(** [sorted(set(files))]: the distinct paths in increasing order. The
    list sort is a stable merge sort whatever order the set is read in;
    [sorted_set_any_order] below shows that the order does not matter. *)
Definition sorted_set (files : list SPath) : list SPath :=
  merge_sort path_le (remove_dups files).

(** ** Exceptions, the file system and the world *)

Inductive exn : Type :=
| FileNotFoundError
| IsADirectoryError
| PermissionError
| IndexError
| ValueError
| OverflowError
| RecursionError
| CustomRuntimeError (message : string)
| Foreign (label : string).

(** [isinstance(e, OSError)] *)
Definition is_OSError (e : exn) : bool :=
  match e with
  | FileNotFoundError | IsADirectoryError | PermissionError => true
  | _ => false
  end.

Inductive result (A : Type) : Type :=
| Ok (a : A)
| Raise (e : exn).
Arguments Ok {A} a.
Arguments Raise {A} e.

(** What the file system holds at a path. [pinned] entries refuse to be
    unlinked (the operating system denies it). *)
Record inode : Type := {
  is_dir : bool;
  st_size : N;
  pinned : bool;
}.

Abbreviation FS := (gmap SPath inode).

(** Calls that leave the indexer, recorded in order. *)
Inductive event : Type :=
| EvUnlink (path : SPath)
| EvRewrite (index_path : SPath) (filepaths : list SPath)
| EvPopen (argv : list string) (cwd : string).

Record World : Type := {
  fs : FS;
  log : list event;
}.

(** Computations that read and change the world and may raise. The world
    at the moment of a raise is kept: Python does not roll back. *)
Definition M (A : Type) : Type := World → result A * World.

#[global] Instance M_ret : MRet M := λ A a w, (Ok a, w).
#[global] Instance M_bind : MBind M := λ A B f m w,
  match m w with
  | (Ok a, w') => f a w'
  | (Raise e, w') => (Raise e, w')
  end.

Definition raise {A} (e : exn) : M A := λ w, (Raise e, w).

Definition liftR {A} (r : result A) : M A := λ w, (r, w).

(** [try: body / except E: handler], where [catches] tells the instances
    of [E]. *)
Definition try_except {A} (body : M A) (catches : exn → bool) (handler : M A) : M A :=
  λ w,
    match body w with
    | (Raise e, w') => if catches e then handler w' else (Raise e, w')
    | (Ok a, w') => (Ok a, w')
    end.

(** [p.stat().st_size] *)
Definition stat_size (p : SPath) : M N := λ w,
  match fs w !! p with
  | Some i => (Ok (st_size i), w)
  | None => (Raise FileNotFoundError, w)
  end.

(** [p.is_file()] *)
Definition is_file (p : SPath) : M bool := λ w,
  match fs w !! p with
  | Some i => (Ok (negb (is_dir i)), w)
  | None => (Ok false, w)
  end.

(** [p.unlink()] *)
Definition unlink (p : SPath) : M unit := λ w,
  match fs w !! p with
  | None => (Raise FileNotFoundError, w)
  | Some i =>
      if is_dir i then (Raise IsADirectoryError, w)
      else if pinned i then (Raise PermissionError, w)
      else (Ok (), {| fs := delete p (fs w); log := log w ++ [EvUnlink p] |})
  end.

Definition fresh_dir : inode :=
  {| is_dir := true; st_size := 4096; pinned := false |}.

(** Modelled from the spec: [SPath.mkdirp] is vstools' and not part of the
    sources; the spec has it ensure that the output directory exists. The
    folder of [p] and each of its ancestors is created where nothing is. *)
Definition mkdirp (p : SPath) : M unit := λ w,
  let folder := Path.get_folder p in
  let mk (m : FS) (d : SPath) : FS :=
    match m !! d with
    | Some _ => m
    | None => <[d := fresh_dir]> m
    end in
  (Ok (), {| fs := foldl mk (fs w) ((λ k, take k folder) <$> seq 1 (length folder));
             log := log w |}).

(** ** The platform: temp directory, set iteration, child processes *)

(** What a child process did: exit status, what it wrote to its standard
    output and error, and the file system it left. *)
Record outcome : Type := {
  status : Z;
  out : string;
  err : string;
  fs_after : FS;
}.

(** [set_list xs] is [list(set(xs))] for strings: the distinct elements in
    the iteration order of the set, which depends on the string hashes of
    the running interpreter and on nothing the program controls. *)
Record OS : Type := {
  gettempdir : string;
  set_list : list string → list string;
  set_list_NoDup : ∀ xs, NoDup (set_list xs);
  set_list_elem : ∀ xs x, x ∈ set_list xs ↔ x ∈ xs;
  spawn : list string → string → FS → outcome;
}.

(** The [stdout=] and [stderr=] arguments of [subprocess.Popen]. *)
Inductive redirect : Type :=
| Inherit
| PIPE.

(** A finished [Popen] object. [stdout] and [stderr] are streams only when
    the matching argument was [PIPE], and [None] otherwise. *)
Record Proc : Type := {
  returncode : Z;
  proc_stdout : option string;
  proc_stderr : option string;
}.

(** [subprocess.Popen(argv, stdout=.., stderr=.., cwd=cwd)] followed to
    the end of the child. *)
Definition Popen (os : OS) (argv : list string) (stdout stderr : redirect)
    (cwd : string) : M Proc := λ w,
  let r := spawn os argv cwd (fs w) in
  (Ok {| returncode := status r;
         proc_stdout := match stdout with PIPE => Some (out r) | Inherit => None end;
         proc_stderr := match stderr with PIPE => Some (err r) | Inherit => None end |},
   {| fs := fs_after r; log := log w ++ [EvPopen argv cwd] |}).

(** ** [Indexer] and [ExternalIndexer] *)

(** [SPathLike]: a [str] or a path object. *)
Inductive SPathLike : Type :=
| AsStr (s : string)
| AsPath (p : SPath).

(** [SPath(x)] *)
Definition SPath_of (x : SPathLike) : SPath :=
  match x with
  | AsStr s => Path.of_str s
  | AsPath p => p
  end.

(** Truth value: a [str] is true when it is not empty, a path always. *)
Definition truthy (x : SPathLike) : bool :=
  match x with
  | AsStr s => Str.truthy s
  | AsPath _ => true
  end.

(** The [output_folder] argument: [SPathLike | Literal[False] | None]. *)
Inductive out_folder : Type :=
| OF_None
| OF_False
| OF_Like (x : SPathLike).

(** The object [self]: its attributes and the abstract methods a tool
    fills in. [update_video_filenames] works on the file system and may
    raise. *)
Record ExternalIndexer : Type := {
  bin_path : SPath;
  ext : string;
  force : bool;
  default_out_folder : out_folder;
  _default_args : list string;
  get_cmd : list SPath → SPath → list string;
  update_video_filenames : SPath → list SPath → FS → result unit * FS;
}.

Definition index_folder_name : string := ".vssource".

Definition get_joined_names (files : list SPath) : string :=
  Str.join "_" (Path.name <$> files).

(** [n.to_bytes(length, 'little')] *)
Definition to_bytes (length : nat) (n : N) : result (list byte) :=
  if (n <? 256 ^ N.of_nat length)%N then
    Ok ((λ b, default x00 (Byte.of_N b)) <$> MD5.le_bytes length n)
  else Raise OverflowError.

Definition get_videos_hash (files : list SPath) : M string :=
  sizes ← mapM stat_size files;
  let lenght := foldr N.add 0%N sizes in
  size_bytes ← liftR (to_bytes 32 lenght);
  mret (MD5.hexdigest (size_bytes ++ list_byte_of_string (get_joined_names files))).

Definition nl_tab : string := String "010"%char (String "009"%char EmptyString).

Definition run_error_prefix (self : ExternalIndexer) : string :=
  "There was an error while running the " +:+ Path.to_str (bin_path self)
  +:+ " command!: ".

Definition _run_index (os : OS) (self : ExternalIndexer) (files : list SPath)
    (output : SPath) (cmd_args : list string) : M unit :=
  mkdirp output;;
  proc ← Popen os (get_cmd self files output ++ cmd_args ++ _default_args self)
           Inherit Inherit (Path.to_str (Path.get_folder output));
  let status := returncode proc in
  if bool_decide (status ≠ 0%Z) then
    let stderr :=
      match proc_stderr proc with
      | Some s =>
          let s := Str.strip s in
          if Str.truthy s then nl_tab +:+ s else s
      | None => EmptyString
      end in
    let stdout :=
      match proc_stdout proc with
      | Some s =>
          let s := Str.strip s in
          if Str.truthy s then nl_tab +:+ s else s
      | None => EmptyString
      end in
    raise (CustomRuntimeError (run_error_prefix self +:+ stderr +:+ stdout))
  else mret ().

Definition get_out_folder (os : OS) (self : ExternalIndexer)
    (output_folder : out_folder) (file : option SPath) : SPath :=
  match output_folder with
  | OF_None =>
      match file with
      | Some f => Path.get_folder f
      | None => Path.of_str (gettempdir os)
      end
  | OF_False => Path.of_str (gettempdir os)
  | OF_Like x =>
      if negb (truthy x) then Path.of_str (gettempdir os)
      else SPath_of x
  end.

Definition get_idx_file_path (self : ExternalIndexer) (path : SPath) : result SPath :=
  match Path.with_suffix path ("." +:+ ext self) with
  | Some p => Ok p
  | None => Raise ValueError
  end.

Definition corrupted_delete_failed : string :=
  "Index file corrupted, tried to delete it and failed.".
Definition corrupted_retry : string :=
  "Index file corrupted! Delete it and retry.".

Definition file_corrupted (self : ExternalIndexer) (index_path : SPath) : M unit :=
  if force self then
    try_except (unlink index_path) is_OSError
      (raise (CustomRuntimeError corrupted_delete_failed))
  else raise (CustomRuntimeError corrupted_retry).

Definition get_video_idx_path (self : ExternalIndexer) (folder : SPath)
    (file_hash : string) (video_name : SPathLike) : result SPath :=
  let vid_name := Path.stem (SPath_of video_name) in
  let filename := Str.join "_" [file_hash; vid_name] in
  get_idx_file_path self
    (Path.truediv (Path.truediv folder index_folder_name) filename).

(** The collaborator's rewrite of the file names an index records. *)
Definition rewrite_filenames (self : ExternalIndexer) (index_path : SPath)
    (filepaths : list SPath) : M unit := λ w,
  let '(r, fs') := update_video_filenames self index_path filepaths (fs w) in
  (r, {| fs := fs'; log := log w ++ [EvRewrite index_path filepaths] |}).

(** The closure [_index] of [index]; [force] and [cmd_args] are the
    variables of [index] it captures. *)
Definition _index (os : OS) (self : ExternalIndexer) (force : bool)
    (cmd_args : list string) (files : list SPath) (output : SPath) : M unit :=
  isf ← is_file output;
  if isf : bool then
    size ← stat_size output;
    if (size =? 0)%N || force then
      unlink output;;
      _run_index os self files output cmd_args
    else rewrite_filenames self output files
  else _run_index os self files output cmd_args.

Definition folder_str (f : SPath) : string := Path.to_str (Path.get_folder f).

(** [len(unique_folders := list(set([...]))) > 1] *)
Definition multi_folder (os : OS) (files : list SPath) : bool :=
  (1 <? length (set_list os (folder_str <$> files)))%nat.

(** The type of [index] once [self] is bound. *)
Definition index_fn : Type :=
  list SPath → bool → bool → out_folder → list string → M (list SPath).

(** The body of [index]; [self_index] is what [self.index] calls. *)
Definition index_body (self_index : index_fn) (os : OS) (self : ExternalIndexer)
    (files : list SPath) (force split_files : bool)
    (output_folder : out_folder) (cmd_args : list string) : M (list SPath) :=
  let unique_folders := set_list os (folder_str <$> files) in
  if multi_folder os files then
    ss ← mapM (λ folder,
            self_index (filter (λ f, folder_str f = folder) files)
              force split_files output_folder [])
          unique_folders;
    mret (concat ss)
  else
    match files with
    | [] => raise IndexError
    | file0 :: _ =>
        let dest_folder := get_out_folder os self output_folder (Some file0) in
        let files := sorted_set files in
        hash_str ← get_videos_hash files;
        if negb split_files then
          output ← liftR (get_video_idx_path self dest_folder hash_str
                      (AsStr (if (1 <? length files)%nat then "JOINED" else "SINGLE")));
          _index os self force cmd_args files output;;
          mret [output]
        else
          outputs ← mapM (λ file,
                       liftR (get_video_idx_path self dest_folder hash_str
                                (AsStr (Path.name file))))
                     files;
          mapM (λ fo, _index os self force cmd_args [fo.1] fo.2)
            (zip files outputs);;
          mret outputs
    end.

(** [index], with the nesting of its recursive calls bounded by [depth]:
    Python raises [RecursionError] at the interpreter's limit. *)
Fixpoint index_at (depth : nat) (os : OS) (self : ExternalIndexer) : index_fn :=
  match depth with
  | O => λ _ _ _ _ _, raise RecursionError
  | S depth' => index_body (index_at depth' os self) os self
  end.

Definition recursion_limit : nat := 1000.

Definition index (os : OS) (self : ExternalIndexer) (files : list SPath)
    (force split_files : bool) (output_folder : out_folder)
    (cmd_args : list string) : M (list SPath) :=
  index_at recursion_limit os self files force split_files output_folder cmd_args.

(** ** More of [Indexer] *)

(** [buff.index(x)]: the first position of [x]; [None] stands for the
    [ValueError] of a list that does not hold [x]. *)
Fixpoint list_index (x : string) (buff : list string) : option nat :=
  match buff with
  | [] => None
  | y :: rest => if String.eqb y x then Some 0%nat else S <$> list_index x rest
  end.

Definition _split_lines (buff : list string) : result (list string * list string) :=
  match list_index EmptyString buff with
  | Some split_idx => Ok (take split_idx buff, drop (split_idx + 1) buff)
  | None => Raise ValueError
  end.

(** ** Opening clips: [_source] and the two [source] methods *)

(** The decoding side, which the indexer only calls: the class attribute
    [_source_func], [core.std.Splice] and [initialize_clip]. [clip_format]
    stands for the seven arguments from [bits] to [field_based] and
    [source_kwargs] for the keyword arguments handed to [_source_func];
    both are passed on as they come. [source_func] reads the file system
    and may write to it. *)
Record VapourSynth : Type := {
  VideoNode : Type;
  clip_format : Type;
  source_kwargs : Type;
  source_func : string → source_kwargs → FS → result VideoNode * FS;
  Splice : list VideoNode → result VideoNode;
  initialize_clip : VideoNode → clip_format → result VideoNode;
}.

(** [self.source_func(path, **kwargs)] *)
Definition call_source_func (vs : VapourSynth) (path : string)
    (kwargs : source_kwargs vs) : M (VideoNode vs) := λ w,
  let '(r, m) := source_func vs path kwargs (fs w) in
  (r, {| fs := m; log := log w |}).

(** [_source], once its clips are listed. *)
Definition _source (vs : VapourSynth) (clips : list (VideoNode vs))
    (format : clip_format vs) : result (VideoNode vs) :=
  match match clips with
        | [clip] => Ok clip
        | _ => Splice vs clips
        end with
  | Ok clip => initialize_clip vs clip format
  | Raise e => Raise e
  end.


(** [ExternalIndexer.source]; [file] is [to_arr(file)]. *)
Definition source (os : OS) (self : ExternalIndexer) (vs : VapourSynth)
    (file : list SPathLike) (format : clip_format vs)
    (kwargs : source_kwargs vs) : M (VideoNode vs) :=
  index_files ← index os self (SPath_of <$> file) false false OF_None [];
  clips ← mapM (λ idx_filename,
             call_source_func vs (Path.to_str idx_filename) kwargs)
           index_files;
  liftR (_source vs clips format).

(** ** A sample platform and tool, for running the model *)

Module Sample.
(** The tool writes a 100-byte index at the path that follows [-o]. *)
Definition tool_writes (argv : list string) (cwd : string) (m : FS) : outcome :=
  {| status := 0; out := "done"; err := EmptyString;
     fs_after :=
       match argv !! 2%nat with
       | Some o => <[Path.of_str o := {| is_dir := false; st_size := 100; pinned := false |}]> m
       | None => m
       end |}.

Definition first_seen (xs : list string) : list string :=
  reverse (remove_dups (reverse xs)).

Lemma first_seen_NoDup xs : NoDup (first_seen xs).
Proof. unfold first_seen. rewrite reverse_Permutation. apply NoDup_remove_dups. Qed.

Lemma first_seen_elem xs x : x ∈ first_seen xs ↔ x ∈ xs.
Proof.
  unfold first_seen.
  by rewrite elem_of_reverse, elem_of_remove_dups, elem_of_reverse.
Qed.

Definition last_seen_first (xs : list string) : list string :=
  reverse (remove_dups xs).

Lemma last_seen_first_NoDup xs : NoDup (last_seen_first xs).
Proof. unfold last_seen_first. rewrite reverse_Permutation. apply NoDup_remove_dups. Qed.

Lemma last_seen_first_elem xs x : x ∈ last_seen_first xs ↔ x ∈ xs.
Proof.
  unfold last_seen_first. by rewrite elem_of_reverse, elem_of_remove_dups.
Qed.

Definition os_fifo : OS :=
  {| gettempdir := "/tmp";
     set_list := first_seen;
     set_list_NoDup := first_seen_NoDup;
     set_list_elem := first_seen_elem;
     spawn := tool_writes |}.

Definition os_lifo : OS :=
  {| gettempdir := "/tmp";
     set_list := last_seen_first;
     set_list_NoDup := last_seen_first_NoDup;
     set_list_elem := last_seen_first_elem;
     spawn := tool_writes |}.

Definition tool : ExternalIndexer :=
  {| bin_path := Path.of_str "dgindex";
     ext := "dgi";
     force := true;
     default_out_folder := OF_None;
     _default_args := ["-h"];
     get_cmd := λ files output,
       ["dgindex"; "-o"; Path.to_str output; "-i"] ++ (Path.to_str <$> files);
     update_video_filenames := λ _ _ m, (Ok (), m) |}.

(** A tool that fails after writing to both of its streams. *)
Definition tool_fails (argv : list string) (cwd : string) (m : FS) : outcome :=
  {| status := 1; out := "frame 12"; err := "boom"; fs_after := m |}.

(** A tool that reports success and writes nothing. *)
Definition tool_idle (argv : list string) (cwd : string) (m : FS) : outcome :=
  {| status := 0; out := EmptyString; err := EmptyString; fs_after := m |}.

Definition os_failing : OS :=
  {| gettempdir := "/tmp";
     set_list := first_seen;
     set_list_NoDup := first_seen_NoDup;
     set_list_elem := first_seen_elem;
     spawn := tool_fails |}.

Definition os_idle : OS :=
  {| gettempdir := "/tmp";
     set_list := first_seen;
     set_list_NoDup := first_seen_NoDup;
     set_list_elem := first_seen_elem;
     spawn := tool_idle |}.

Definition file (size : N) : inode :=
  {| is_dir := false; st_size := size; pinned := false |}.

Definition a : SPath := Path.of_str "/d/a.mkv".
Definition b : SPath := Path.of_str "/d/b.mkv".
Definition c : SPath := Path.of_str "/e/c.mkv".

Definition w0 : World :=
  {| fs := <[a := file 10]> (<[b := file 20]> (<[c := file 30]> ∅)); log := [] |}.

(** The same indexer without [force]. *)
Definition tool_keep : ExternalIndexer :=
  {| bin_path := bin_path tool; ext := ext tool; force := false;
     default_out_folder := OF_None; _default_args := _default_args tool;
     get_cmd := get_cmd tool;
     update_video_filenames := update_video_filenames tool |}.

Definition idx : SPath := Path.of_str "/d/.vssource/0_SINGLE.dgi".

(** A world with an index file at [idx], and one where it is pinned. *)
Definition w_idx : World :=
  {| fs := <[idx := file 7]> (fs w0); log := [] |}.
Definition w_pinned : World :=
  {| fs := <[idx := {| is_dir := false; st_size := 7; pinned := true |}]> (fs w0);
     log := [] |}.
End Sample.

(** More sample data. *)

Module Cases.
(** One file whose name is the joined names of two others, and whose size
    is the sum of theirs. *)
Definition a_b : SPath := Path.of_str "/d/a_b.mkv".
Definition a0 : SPath := Path.of_str "/d/a".

Definition w_names : World :=
  {| fs := <[a_b := Sample.file 30]> (<[a0 := Sample.file 10]> (fs Sample.w0));
     log := [] |}.

(** A decoder whose clips are the list of the paths they were opened
    from; it opens what is a regular file. *)
Definition decoder : VapourSynth :=
  {| VideoNode := list string;
     clip_format := unit;
     source_kwargs := unit;
     source_func := λ path _ m,
       (match m !! Path.of_str path with
        | Some i => if is_dir i then Raise (Foreign "vs.Error") else Ok [path]
        | None => Raise (Foreign "vs.Error")
        end, m);
     Splice := λ clips,
       match clips with
       | [] => Raise (Foreign "vs.Error")
       | _ => Ok (concat clips)
       end;
     initialize_clip := λ clip _, Ok clip |}.

(** A world in which the joined index of [Sample.a] and [Sample.b] is
    already there. *)
Definition joined_idx : SPath :=
  Path.of_str "/d/.vssource/a8c714da8b4ab0a1fc3b6de3ac472a80_JOINED.dgi".

Definition w_joined : World :=
  {| fs := <[joined_idx := Sample.file 100]> (fs Sample.w0); log := [] |}.
End Cases.

(** ** Vocabulary of the properties *)

(** The argument list and working directory [_run_index] starts the tool
    with. *)
Definition run_argv (self : ExternalIndexer) (files : list SPath)
    (output : SPath) (cmd_args : list string) : list string :=
  get_cmd self files output ++ cmd_args ++ _default_args self.

Definition run_cwd (output : SPath) : string :=
  Path.to_str (Path.get_folder output).

(** What the tool does when [_run_index] starts it in world [w]. *)
Definition run_outcome (os : OS) (self : ExternalIndexer) (files : list SPath)
    (output : SPath) (cmd_args : list string) (w : World) : outcome :=
  spawn os (run_argv self files output cmd_args) (run_cwd output)
    (fs (mkdirp output w).2).

(** Whether [unlink] goes through: a regular file that is not pinned. *)
Definition can_unlink (w : World) (p : SPath) : bool :=
  match fs w !! p with
  | Some i => negb (is_dir i) && negb (pinned i)
  | None => false
  end.

(** The logical name of the one unit of joined mode. *)
Definition joined_tag (files : list SPath) : string :=
  if (1 <? length files)%nat then "JOINED" else "SINGLE".

(** [emits P m]: the events [m] appends to the log all satisfy [P], and
    [m] removes none. *)
Definition emits {A} (P : event → Prop) (m : M A) : Prop :=
  ∀ w, ∃ evs, log (m w).2 = log w ++ evs ∧ Forall P evs.

(** The tool was started with [cmd_args] between the command of
    [get_cmd] and the default arguments. *)
Definition passes_args (self : ExternalIndexer) (cmd_args : list string)
    (ev : event) : Prop :=
  match ev with
  | EvPopen argv _ =>
      ∃ files output, argv = get_cmd self files output ++ cmd_args ++ _default_args self
  | _ => True
  end.

(** How many times the tool was started. *)
Fixpoint popens (evs : list event) : nat :=
  match evs with
  | [] => 0
  | EvPopen _ _ :: evs' => S (popens evs')
  | _ :: evs' => popens evs'
  end.

(** [self] with other values for the two constructor arguments [force]
    and [default_out_folder]. *)
Definition with_options (self : ExternalIndexer) (force' : bool)
    (default_out_folder' : out_folder) : ExternalIndexer :=
  {| bin_path := bin_path self;
     ext := ext self;
     force := force';
     default_out_folder := default_out_folder';
     _default_args := _default_args self;
     get_cmd := get_cmd self;
     update_video_filenames := update_video_filenames self |}.

(** Every character of [s] satisfies [P]. *)
Fixpoint str_all (P : ascii → bool) (s : string) : bool :=
  match s with
  | EmptyString => true
  | String c s' => P c && str_all P s'
  end.

(** One of [0123456789abcdef]. *)
Definition is_hex_digit (c : ascii) : bool :=
  let n := N_of_ascii c in
  ((48 <=? n) && (n <=? 57) || (97 <=? n) && (n <=? 102))%N.

Definition no_sep (s : string) : bool :=
  str_all (λ c, negb (Ascii.eqb c Path.sep)) s.

Definition no_dot (s : string) : bool :=
  str_all (λ c, negb (Ascii.eqb c "."%char)) s.

(** A non-empty string with neither a path separator nor a dot. *)
Definition plain (s : string) : bool :=
  Str.truthy s && no_sep s && no_dot s.

(** [p] names an entry of an index folder: its last but one component is
    [.vssource]. *)
Definition in_cache (p : SPath) : Prop :=
  ∃ folder nm, p = folder ++ [index_folder_name; nm].

(** An event that touches the index folder only: a file unlinked or
    rewritten is an entry of a [.vssource] folder, and the tool is started
    with such a folder as its working directory. *)
Definition stays_in_cache (ev : event) : Prop :=
  match ev with
  | EvUnlink p => in_cache p
  | EvRewrite p _ => in_cache p
  | EvPopen _ cwd => ∃ folder, cwd = Path.to_str (folder ++ [index_folder_name])
  end.

(** * Properties *)

(** ** The model at work *)

Example md5_empty :
  MD5.hexdigest [] = "d41d8cd98f00b204e9800998ecf8427e".
Proof. vm_compute. reflexivity. Qed.

Example md5_abc :
  MD5.hexdigest (list_byte_of_string "abc") = "900150983cd24fb0d6963f7d28e17f72".
Proof. vm_compute. reflexivity. Qed.

(** Two blocks: the padding of an 80-byte message spills over. *)
Example md5_digits :
  MD5.hexdigest
    (list_byte_of_string
       ("1234567890123456789012345678901234567890"
        +:+ "1234567890123456789012345678901234567890"))
  = "57edf4a22be3c955ac49da2e2107b67a".
Proof. vm_compute. reflexivity. Qed.

Example path_of_str_normalises :
  Path.to_str (Path.of_str "/d//./a.mkv/") = "/d/a.mkv".
Proof. reflexivity. Qed.

Example path_stem_last_suffix : Path.stem (Path.of_str "/d/a.tar.gz") = "a.tar".
Proof. reflexivity. Qed.

Example path_with_suffix_replaces :
  Path.with_suffix (Path.of_str "/d/.vssource/0_a.1") ".dgi"
  = Some (Path.of_str "/d/.vssource/0_a.dgi").
Proof. reflexivity. Qed.

Example sorted_set_example :
  sorted_set [Sample.b; Sample.a; Sample.b] = [Sample.a; Sample.b].
Proof. vm_compute. reflexivity. Qed.

Example index_joined_example :
  (index Sample.os_fifo Sample.tool [Sample.b; Sample.a] false false OF_None
     ["-x"] Sample.w0).1
  = Ok [Path.of_str "/d/.vssource/a8c714da8b4ab0a1fc3b6de3ac472a80_JOINED.dgi"].
Proof. vm_compute. reflexivity. Qed.

Example index_empty_example :
  (index Sample.os_fifo Sample.tool [] false false OF_None [] Sample.w0).1
  = Raise IndexError.
Proof. vm_compute. reflexivity. Qed.

(** ** The order on paths and the canonical file list *)

#[global] Instance path_le_total : Total path_le.
Proof.
  intros a b. unfold path_le, path_lt.
  destruct (trichotomy lexico a b) as [Hab | [-> | Hba]].
  - left. intros Hba. exact (strict_anti_symm _ _ Hab Hba).
  - left. apply irreflexivity, _.
  - right. intros Hab. exact (strict_anti_symm _ _ Hab Hba).
Qed.

#[global] Instance path_le_trans : Transitive path_le.
Proof.
  intros a b c Hab Hbc Hca. unfold path_le, path_lt in *.
  destruct (trichotomy lexico a b) as [Hlt | [-> | Hlt]].
  - apply Hbc. by trans a.
  - by apply Hbc.
  - by apply Hab.
Qed.

#[global] Instance path_le_antisymm : AntiSymm (=) path_le.
Proof.
  intros a b Hab Hba. unfold path_le, path_lt in *.
  destruct (trichotomy lexico a b) as [Hlt | [-> | Hlt]]; done.
Qed.

Lemma sorted_set_Sorted files : Sorted path_le (sorted_set files).
Proof. apply Sorted_merge_sort, _. Qed.

Lemma sorted_set_Permutation files : sorted_set files ≡ₚ remove_dups files.
Proof. apply merge_sort_Permutation. Qed.

Lemma elem_of_sorted_set files f : f ∈ sorted_set files ↔ f ∈ files.
Proof. by rewrite sorted_set_Permutation, elem_of_remove_dups. Qed.

Lemma sorted_set_NoDup files : NoDup (sorted_set files).
Proof. rewrite sorted_set_Permutation. apply NoDup_remove_dups. Qed.

(** Whatever order the set hands its elements over in, the sort returns
    the same list. *)
Lemma sorted_set_any_order files elems :
  NoDup elems → (∀ f, f ∈ elems ↔ f ∈ files) →
  merge_sort path_le elems = sorted_set files.
Proof.
  intros Hnd Hel. apply (Sorted_unique path_le).
  - apply Sorted_merge_sort, _.
  - apply sorted_set_Sorted.
  - rewrite merge_sort_Permutation, sorted_set_Permutation.
    apply NoDup_Permutation; [done | apply NoDup_remove_dups |].
    intros f. by rewrite Hel, elem_of_remove_dups.
Qed.

Lemma sorted_set_ext files files' :
  (∀ f, f ∈ files ↔ f ∈ files') → sorted_set files = sorted_set files'.
Proof.
  intros Hel. apply sorted_set_any_order; [apply NoDup_remove_dups |].
  intros f. by rewrite elem_of_remove_dups, Hel.
Qed.

Lemma sorted_set_nil_inv files : sorted_set files = [] → files = [].
Proof.
  intros Hs. destruct files as [| f files]; [done |].
  assert (f ∈ sorted_set (f :: files)) as Hf
    by (apply elem_of_sorted_set; left).
  rewrite Hs in Hf. by apply elem_of_nil in Hf.
Qed.

(** ** Running computations *)

Lemma bind_run {A B} (m : M A) (k : A → M B) w :
  (m ≫= k) w =
  match m w with
  | (Ok a, w') => k a w'
  | (Raise e, w') => (Raise e, w')
  end.
Proof. reflexivity. Qed.

Lemma bind_ok {A B} (m : M A) (k : A → M B) w a w' :
  m w = (Ok a, w') → (m ≫= k) w = k a w'.
Proof. intros H. by rewrite bind_run, H. Qed.

Lemma bind_raise {A B} (m : M A) (k : A → M B) w e w' :
  m w = (Raise e, w') → (m ≫= k) w = (Raise e, w').
Proof. intros H. by rewrite bind_run, H. Qed.

Lemma bind_ok_inv {A B} (m : M A) (k : A → M B) w b w2 :
  (m ≫= k) w = (Ok b, w2) →
  ∃ a w1, m w = (Ok a, w1) ∧ k a w1 = (Ok b, w2).
Proof.
  rewrite bind_run. destruct (m w) as [[a | e] w1]; [eauto | done].
Qed.

Lemma bind_pointwise {A B} (m m' : M A) (k k' : A → M B) w :
  m w = m' w → (∀ a w1, k a w1 = k' a w1) → (m ≫= k) w = (m' ≫= k') w.
Proof.
  intros Hm Hk. rewrite !bind_run, Hm.
  destruct (m' w) as [[a | e] w1]; [apply Hk | done].
Qed.

Lemma mapM_cons_run {A B} (f : A → M B) x l w :
  mapM f (x :: l) w =
  match f x w with
  | (Ok y, w1) =>
      match mapM f l w1 with
      | (Ok ys, w2) => (Ok (y :: ys), w2)
      | (Raise e, w2) => (Raise e, w2)
      end
  | (Raise e, w1) => (Raise e, w1)
  end.
Proof.
  cbn [mapM]. rewrite bind_run. destruct (f x w) as [[y | e] w1]; [| done].
  rewrite bind_run. by destruct (mapM f l w1) as [[ys | e] w2].
Qed.

Lemma mapM_pointwise {A B} (f g : A → M B) l :
  (∀ x, x ∈ l → ∀ w, f x w = g x w) → ∀ w, mapM f l w = mapM g l w.
Proof.
  induction l as [| x l IH]; intros Hfg w; [done |].
  rewrite !mapM_cons_run, (Hfg x) by left.
  destruct (g x w) as [[y | e] w1]; [| done].
  rewrite IH; [done |]. intros z Hz. apply Hfg. by right.
Qed.

(** A pure step leaves the world alone and maps element by element. *)
Lemma mapM_liftR_ok {A B} (g : A → result B) l w ys w' :
  mapM (λ x, liftR (g x)) l w = (Ok ys, w') →
  w' = w ∧ Forall2 (λ x y, g x = Ok y) l ys.
Proof.
  revert ys. induction l as [| x l IH]; intros ys.
  - intros [= <- <-]. by split; [| constructor].
  - rewrite mapM_cons_run. unfold liftR at 1.
    destruct (g x) as [y | e] eqn:Hg; [| done].
    destruct (mapM (M:=M) _ l w) as [[ys' | e] w1] eqn:Hl; [| done].
    intros [= <- <-]. destruct (IH ys' eq_refl) as [-> HF].
    split; [done |]. by constructor.
Qed.

(** ** The recursion of [index] *)

Lemma set_list_same os xs x :
  (∀ y, y ∈ xs → y = x) → (length (set_list os xs) ≤ 1)%nat.
Proof.
  intros Hall.
  assert (∀ y, y ∈ set_list os xs → y = x) as Hall'
    by (intros y Hy; by apply Hall, (set_list_elem os)).
  pose proof (set_list_NoDup os xs) as Hnd.
  destruct (set_list os xs) as [| y [| z l]]; simpl; [lia | lia |].
  exfalso. apply NoDup_cons in Hnd as [Hy _]. apply Hy.
  rewrite (Hall' y), <- (Hall' z); [left | right; left | left].
Qed.

Lemma multi_folder_filter os files folder :
  multi_folder os (filter (λ f, folder_str f = folder) files) = false.
Proof.
  unfold multi_folder. apply Nat.ltb_ge, (set_list_same os _ folder).
  intros y Hy. apply list_elem_of_fmap in Hy as (f & -> & Hf).
  by apply list_elem_of_filter in Hf as [? _].
Qed.

Lemma same_folder_single os files :
  (∀ f g, f ∈ files → g ∈ files → Path.get_folder f = Path.get_folder g) →
  multi_folder os files = false.
Proof.
  intros Hsame. unfold multi_folder. apply Nat.ltb_ge.
  destruct files as [| f0 files].
  - apply (set_list_same os _ EmptyString). intros y Hy. by apply elem_of_nil in Hy.
  - apply (set_list_same os _ (folder_str f0)). intros y Hy.
    apply list_elem_of_fmap in Hy as (f & -> & Hf). unfold folder_str.
    f_equal. apply Hsame; [done | left].
Qed.

Lemma index_body_rec_ext (rec rec' : index_fn) os self files frc split out args w :
  (∀ folder w', rec (filter (λ f, folder_str f = folder) files) frc split out [] w'
                = rec' (filter (λ f, folder_str f = folder) files) frc split out [] w') →
  index_body rec os self files frc split out args w
  = index_body rec' os self files frc split out args w.
Proof.
  intros Hrec. unfold index_body. destruct (multi_folder os files); [| done].
  apply bind_pointwise; [| done]. apply mapM_pointwise. intros; apply Hrec.
Qed.

Lemma index_body_single (rec rec' : index_fn) os self files frc split out args :
  multi_folder os files = false →
  index_body rec os self files frc split out args
  = index_body rec' os self files frc split out args.
Proof. intros Hone. unfold index_body. by rewrite Hone. Qed.

(** Two levels are all [index] ever nests: the files handed to a
    recursive call share one folder. *)
Lemma index_at_deep depth os self files frc split out args w :
  index_at (S (S depth)) os self files frc split out args w
  = index_at 2 os self files frc split out args w.
Proof.
  cbn [index_at]. apply index_body_rec_ext. intros folder w'.
  by rewrite (index_body_single _ (λ _ _ _ _ _, raise RecursionError))
    by apply multi_folder_filter.
Qed.

(** The recursion limit is never what stops [index]: it satisfies the
    equation of its own body. *)
Lemma index_unfold os self files frc split out args w :
  index os self files frc split out args w
  = index_body (index os self) os self files frc split out args w.
Proof.
  unfold index at 1. change recursion_limit with (S (S 998)).
  rewrite index_at_deep. cbn [index_at]. apply index_body_rec_ext.
  intros folder w'. unfold index.
  change (index_at recursion_limit os self)
    with (index_body (index_at 999 os self) os self).
  by rewrite (index_body_single _ (index_at 999 os self))
    by apply multi_folder_filter.
Qed.

(** ** The output directory *)

(** C9 (amended). [get_out_folder] returns the directory it is given when
    that is a path object or a non-empty string; for [False], and for the
    empty string, which is as false as [False], it returns the system temp
    directory; for [None] it returns the folder of the file it is given, and
    the temp directory when it is given none. *)
Theorem get_out_folder_cases os self :
  (∀ p file, get_out_folder os self (OF_Like (AsPath p)) file = p)
  ∧ (∀ c s file,
       get_out_folder os self (OF_Like (AsStr (String c s))) file
       = Path.of_str (String c s))
  ∧ (∀ file,
       get_out_folder os self (OF_Like (AsStr EmptyString)) file
       = Path.of_str (gettempdir os))
  ∧ (∀ file, get_out_folder os self OF_False file = Path.of_str (gettempdir os))
  ∧ (∀ f, get_out_folder os self OF_None (Some f) = Path.get_folder f)
  ∧ get_out_folder os self OF_None None = Path.of_str (gettempdir os).
Proof. repeat split. Qed.

(** C9 as stated fails: the empty string is an explicit [str] directory
    (the current one), and it is not what comes back. *)
Lemma get_out_folder_explicit_counterexample :
  ¬ (∀ os self x file, get_out_folder os self (OF_Like x) file = SPath_of x).
Proof.
  intros H.
  specialize (H Sample.os_fifo Sample.tool (AsStr EmptyString) (Some Sample.a)).
  vm_compute in H. discriminate H.
Qed.

(** ** Running the tool *)

Lemma append_empty_r s : s +:+ EmptyString = s.
Proof.
  induction s as [| c s IH]; [done |].
  change (String c (s +:+ EmptyString) = String c s). by rewrite IH.
Qed.

Lemma run_index_run os self files output cmd_args w :
  _run_index os self files output cmd_args w =
  let r := run_outcome os self files output cmd_args w in
  (if bool_decide (status r ≠ 0%Z)
   then Raise (CustomRuntimeError (run_error_prefix self))
   else Ok (),
   {| fs := fs_after r;
      log := log w ++ [EvPopen (run_argv self files output cmd_args) (run_cwd output)] |}).
Proof.
  unfold _run_index, run_outcome. rewrite bind_run. cbn [mkdirp snd].
  rewrite bind_run. cbn [Popen returncode proc_stderr proc_stdout fs log].
  fold (run_argv self files output cmd_args). fold (run_cwd output).
  case_bool_decide; [| done].
  unfold raise. change (EmptyString +:+ EmptyString) with EmptyString.
  by rewrite append_empty_r.
Qed.

(** C3 (what the code does). When the tool exits with a non-zero status,
    [_run_index] raises a [CustomRuntimeError] whose message is the fixed
    sentence naming the binary and nothing else: the process is started
    without pipes, so whatever it wrote to its standard output and error is
    not in the message. On a zero status nothing is raised. *)
Theorem run_index_error_has_no_output os self files output cmd_args w :
  let r := run_outcome os self files output cmd_args w in
  (status r ≠ 0%Z →
   (_run_index os self files output cmd_args w).1
   = Raise (CustomRuntimeError (run_error_prefix self)))
  ∧ (status r = 0%Z →
     (_run_index os self files output cmd_args w).1 = Ok ()).
Proof.
  intros r. rewrite run_index_run. fold r. cbn [fst].
  split; intros Hs; case_bool_decide; done.
Qed.

Lemma run_index_error_has_no_output_witness :
  err (run_outcome Sample.os_failing Sample.tool [Sample.a] Sample.idx [] Sample.w0)
  = "boom"
  ∧ (_run_index Sample.os_failing Sample.tool [Sample.a] Sample.idx [] Sample.w0).1
    = Raise (CustomRuntimeError
               "There was an error while running the dgindex command!: ")
  ∧ (_run_index Sample.os_fifo Sample.tool [Sample.a] Sample.idx [] Sample.w0).1
    = Ok ().
Proof.
  split; [reflexivity |]. split.
  - apply (run_index_error_has_no_output
             Sample.os_failing Sample.tool [Sample.a] Sample.idx [] Sample.w0).
    vm_compute. discriminate.
  - apply (run_index_error_has_no_output
             Sample.os_fifo Sample.tool [Sample.a] Sample.idx [] Sample.w0).
    reflexivity.
Defined.

(** ** A corrupted index *)

Lemma unlink_ok p w :
  can_unlink w p = true →
  unlink p w = (Ok (), {| fs := delete p (fs w); log := log w ++ [EvUnlink p] |}).
Proof.
  unfold can_unlink, unlink. destruct (fs w !! p) as [i |]; [| done].
  by destruct (is_dir i), (pinned i).
Qed.

Lemma unlink_fails p w :
  can_unlink w p = false →
  ∃ e, is_OSError e = true ∧ unlink p w = (Raise e, w).
Proof.
  unfold can_unlink, unlink. destruct (fs w !! p) as [i |].
  - destruct (is_dir i), (pinned i); intros Hcan; try discriminate Hcan;
      (eexists; split; [| reflexivity]; reflexivity).
  - intros _. by exists FileNotFoundError.
Qed.

(** C4. With [force] set, [file_corrupted] deletes the index file and
    raises the deletion-failed error exactly when the deletion fails; with
    [force] not set it raises the corrupted-index error and leaves the world
    as it was. In no case is the tool started. *)
Theorem file_corrupted_spec self index_path w :
  (force self = true → can_unlink w index_path = true →
   file_corrupted self index_path w
   = (Ok (), {| fs := delete index_path (fs w);
                log := log w ++ [EvUnlink index_path] |}))
  ∧ (force self = true → can_unlink w index_path = false →
     file_corrupted self index_path w
     = (Raise (CustomRuntimeError corrupted_delete_failed), w))
  ∧ (force self = false →
     file_corrupted self index_path w
     = (Raise (CustomRuntimeError corrupted_retry), w)).
Proof.
  unfold file_corrupted. repeat split.
  - intros -> Hcan. unfold try_except. by rewrite unlink_ok.
  - intros -> Hcan. unfold try_except.
    destruct (unlink_fails _ _ Hcan) as (e & He & ->). by rewrite He.
  - by intros ->.
Qed.

Lemma file_corrupted_spec_witness :
  (file_corrupted Sample.tool Sample.idx Sample.w_idx).1 = Ok ()
  ∧ fs (file_corrupted Sample.tool Sample.idx Sample.w_idx).2 !! Sample.idx = None
  ∧ file_corrupted Sample.tool Sample.idx Sample.w_pinned
    = (Raise (CustomRuntimeError corrupted_delete_failed), Sample.w_pinned)
  ∧ file_corrupted Sample.tool_keep Sample.idx Sample.w_idx
    = (Raise (CustomRuntimeError corrupted_retry), Sample.w_idx).
Proof.
  pose proof (file_corrupted_spec Sample.tool Sample.idx Sample.w_idx)
    as (Hdel & _ & _).
  pose proof (file_corrupted_spec Sample.tool Sample.idx Sample.w_pinned)
    as (_ & Hpin & _).
  pose proof (file_corrupted_spec Sample.tool_keep Sample.idx Sample.w_idx)
    as (_ & _ & Hkeep).
  assert (can_unlink Sample.w_idx Sample.idx = true) as Hcan
    by (vm_compute; reflexivity).
  rewrite (Hdel eq_refl Hcan). cbn [fst snd fs].
  split; [reflexivity |]. split; [apply lookup_delete_eq |].
  split; [apply Hpin; vm_compute; reflexivity | apply Hkeep; reflexivity].
Defined.

(** ** Batches over several folders *)

(** C2 (amended). A batch over more than one folder is handled folder by
    folder, in the order in which the set of folder names is iterated: a
    duplicate-free enumeration of the folders of the batch, in no promised
    order. Each folder's files, in their input order, go to a recursive
    call of their own, made without extra arguments, and the results are
    concatenated in that order. *)
Theorem index_multi_folder os self files frc split out args w :
  multi_folder os files = true →
  NoDup (set_list os (folder_str <$> files))
  ∧ (∀ folder, folder ∈ set_list os (folder_str <$> files)
               ↔ ∃ f, f ∈ files ∧ folder_str f = folder)
  ∧ index os self files frc split out args w
    = (ss ← mapM (λ folder,
              index os self (filter (λ f, folder_str f = folder) files)
                frc split out [])
            (set_list os (folder_str <$> files));
       mret (concat ss)) w.
Proof.
  intros Hmulti. split; [apply set_list_NoDup |]. split.
  - intros folder. rewrite set_list_elem, list_elem_of_fmap.
    split; [intros (f & -> & Hf); eauto | intros (f & Hf & <-); eauto].
  - rewrite index_unfold. unfold index_body. by rewrite Hmulti.
Qed.

Lemma index_multi_folder_witness :
  (index Sample.os_fifo Sample.tool [Sample.a; Sample.c; Sample.b]
     false false OF_None [] Sample.w0).1
  = Ok [ Path.of_str "/d/.vssource/a8c714da8b4ab0a1fc3b6de3ac472a80_JOINED.dgi";
         Path.of_str "/e/.vssource/2e7448edaf03d9a2d9a6ac1f46f6c3fe_SINGLE.dgi" ].
Proof.
  destruct (index_multi_folder Sample.os_fifo Sample.tool
              [Sample.a; Sample.c; Sample.b] false false OF_None []
              Sample.w0 eq_refl) as (_ & _ & ->).
  vm_compute. reflexivity.
Defined.

(** C2 as stated fails: on a platform whose set hands the folder of the
    second file over first, the results come back in that order, not in
    the order the folders appear in the input. *)
Lemma index_folder_order_counterexample :
  (index Sample.os_lifo Sample.tool [Sample.a] false false OF_None [] Sample.w0).1
  = Ok [Path.of_str "/d/.vssource/22c5396db8d851442a872d62e9e5d4c7_SINGLE.dgi"]
  ∧ (index Sample.os_lifo Sample.tool [Sample.c] false false OF_None [] Sample.w0).1
    = Ok [Path.of_str "/e/.vssource/2e7448edaf03d9a2d9a6ac1f46f6c3fe_SINGLE.dgi"]
  ∧ (index Sample.os_lifo Sample.tool [Sample.a; Sample.c]
       false false OF_None [] Sample.w0).1
    = Ok [ Path.of_str "/e/.vssource/2e7448edaf03d9a2d9a6ac1f46f6c3fe_SINGLE.dgi";
           Path.of_str "/d/.vssource/22c5396db8d851442a872d62e9e5d4c7_SINGLE.dgi" ].
Proof. repeat split; vm_compute; reflexivity. Qed.

(** ** What a call records *)

Section emits.
Context (P : event → Prop).

Lemma emits_silent {A} (m : M A) : (∀ w, log (m w).2 = log w) → emits P m.
Proof. intros H w. exists []. by rewrite H, app_nil_r. Qed.

Lemma emits_ret {A} (a : A) : emits P (mret a).
Proof. by apply emits_silent. Qed.

Lemma emits_raise {A} e : emits P (raise (A:=A) e).
Proof. by apply emits_silent. Qed.

Lemma emits_liftR {A} (r : result A) : emits P (liftR r).
Proof. by apply emits_silent. Qed.

Lemma emits_stat_size p : emits P (stat_size p).
Proof.
  apply emits_silent. intros w. unfold stat_size. by destruct (fs w !! p).
Qed.

Lemma emits_is_file p : emits P (is_file p).
Proof.
  apply emits_silent. intros w. unfold is_file. by destruct (fs w !! p).
Qed.

Lemma emits_mkdirp p : emits P (mkdirp p).
Proof. by apply emits_silent. Qed.

Lemma emits_bind {A B} (m : M A) (k : A → M B) :
  emits P m → (∀ a, emits P (k a)) → emits P (m ≫= k).
Proof.
  intros Hm Hk w. rewrite bind_run. destruct (Hm w) as (evs & Hlog & HP).
  destruct (m w) as [[a | e] w1]; cbn [snd] in *.
  - destruct (Hk a w1) as (evs' & Hlog' & HP').
    exists (evs ++ evs'). rewrite Hlog', Hlog, (assoc_L (++)).
    split; [done | by apply Forall_app].
  - by exists evs.
Qed.

Lemma emits_mapM {A B} (f : A → M B) l :
  (∀ x, x ∈ l → emits P (f x)) → emits P (mapM f l).
Proof.
  induction l as [| x l IH]; intros Hf; [apply emits_ret |].
  cbn [mapM]. apply emits_bind; [apply Hf; left |]. intros y.
  apply emits_bind; [| intros; apply emits_ret].
  apply IH. intros z Hz. apply Hf. by right.
Qed.

Lemma emits_unlink p : P (EvUnlink p) → emits P (unlink p).
Proof.
  intros HP w. unfold unlink. destruct (fs w !! p) as [i |].
  - destruct (is_dir i); [exists []; by rewrite app_nil_r |].
    destruct (pinned i); [exists []; by rewrite app_nil_r |].
    exists [EvUnlink p]. split; [done | by constructor].
  - exists []. by rewrite app_nil_r.
Qed.

Lemma emits_rewrite_filenames self p files :
  P (EvRewrite p files) → emits P (rewrite_filenames self p files).
Proof.
  intros HP w. unfold rewrite_filenames.
  destruct (update_video_filenames self p files (fs w)) as [r m].
  exists [EvRewrite p files]. split; [done | by constructor].
Qed.

Lemma emits_run_index os self files output cmd_args :
  P (EvPopen (run_argv self files output cmd_args) (run_cwd output)) →
  emits P (_run_index os self files output cmd_args).
Proof.
  intros HP w. rewrite run_index_run. cbn [snd log].
  eexists. split; [done | by constructor].
Qed.

Lemma emits_get_videos_hash files : emits P (get_videos_hash files).
Proof.
  unfold get_videos_hash. apply emits_bind.
  - apply emits_mapM. intros; apply emits_stat_size.
  - intros sizes. apply emits_bind; [apply emits_liftR |].
    intros; apply emits_ret.
Qed.
End emits.

Lemma emits_index_unit os self frc cmd_args files output :
  emits (passes_args self cmd_args) (_index os self frc cmd_args files output).
Proof.
  assert (emits (passes_args self cmd_args)
            (_run_index os self files output cmd_args)) as Hrun.
  { apply emits_run_index. by exists files, output. }
  unfold _index. apply emits_bind; [apply emits_is_file |]. intros [|]; [| done].
  apply emits_bind; [apply emits_stat_size |]. intros size.
  destruct ((size =? 0)%N || frc).
  - apply emits_bind; [by apply emits_unlink | done].
  - by apply emits_rewrite_filenames.
Qed.

Lemma emits_index_body (rec : index_fn) os self files frc split out cmd_args :
  (∀ files', emits (passes_args self []) (rec files' frc split out [])) →
  emits (passes_args self (if multi_folder os files then [] else cmd_args))
    (index_body rec os self files frc split out cmd_args).
Proof.
  intros Hrec. unfold index_body. destruct (multi_folder os files).
  - apply emits_bind; [| intros; apply emits_ret].
    apply emits_mapM. intros; apply Hrec.
  - destruct files as [| file0 files]; [apply emits_raise |].
    apply emits_bind; [apply emits_get_videos_hash |]. intros h.
    destruct split; cbn [negb].
    + apply emits_bind; [apply emits_mapM; intros; apply emits_liftR |].
      intros outputs. apply emits_bind; [| intros; apply emits_ret].
      apply emits_mapM. intros; apply emits_index_unit.
    + apply emits_bind; [apply emits_liftR |]. intros output.
      apply emits_bind; [apply emits_index_unit | intros; apply emits_ret].
Qed.

Lemma emits_index_at depth os self files frc split out cmd_args :
  emits (passes_args self (if multi_folder os files then [] else cmd_args))
    (index_at depth os self files frc split out cmd_args).
Proof.
  revert files cmd_args. induction depth as [| depth IH]; intros files cmd_args.
  - apply emits_raise.
  - cbn [index_at]. apply emits_index_body. intros files'.
    specialize (IH files' []). by destruct (multi_folder os files').
Qed.

(** C10. In a batch over more than one folder the extra arguments never
    reach the tool: the call does what it does without them, and every
    start of the tool has the command of [get_cmd] followed by the default
    arguments only. In a one-folder call every start of the tool has the
    extra arguments between the two. *)
Theorem index_cmd_args os self files frc split out cmd_args w :
  (multi_folder os files = true →
   index os self files frc split out cmd_args w
   = index os self files frc split out [] w)
  ∧ ∃ evs,
      log (index os self files frc split out cmd_args w).2 = log w ++ evs
      ∧ Forall (passes_args self
                  (if multi_folder os files then [] else cmd_args)) evs.
Proof.
  split.
  - intros Hmulti. rewrite !index_unfold. unfold index_body. by rewrite Hmulti.
  - apply emits_index_at.
Qed.

Lemma index_cmd_args_witness :
  index Sample.os_fifo Sample.tool [Sample.a; Sample.c] false false OF_None
    ["-x"] Sample.w0
  = index Sample.os_fifo Sample.tool [Sample.a; Sample.c] false false OF_None
      [] Sample.w0
  ∧ log (index Sample.os_fifo Sample.tool [Sample.a] false false OF_None
           ["-x"] Sample.w0).2
    = [EvPopen
         ["dgindex"; "-o";
          "/d/.vssource/22c5396db8d851442a872d62e9e5d4c7_SINGLE.dgi";
          "-i"; "/d/a.mkv"; "-x"; "-h"]
         "/d/.vssource"].
Proof.
  split.
  - apply (index_cmd_args Sample.os_fifo Sample.tool [Sample.a; Sample.c]
             false false OF_None ["-x"] Sample.w0).
    vm_compute. reflexivity.
  - vm_compute. reflexivity.
Defined.

(** ** Content identity *)

Lemma mapM_stat_size_world files w : (mapM stat_size files w).2 = w.
Proof.
  revert w. induction files as [| f files IH]; intros w; [done |].
  rewrite mapM_cons_run. unfold stat_size at 1.
  destruct (fs w !! f) as [i |]; [| done].
  specialize (IH w). by destruct (mapM stat_size files w) as [[sizes | e] w1].
Qed.

(** Computing the identity only reads the file system. *)
Lemma get_videos_hash_world files w : (get_videos_hash files w).2 = w.
Proof.
  unfold get_videos_hash. rewrite bind_run.
  pose proof (mapM_stat_size_world files w) as Hw.
  destruct (mapM stat_size files w) as [[sizes | e] w1]; cbn [snd] in Hw; subst w1;
    [| done].
  rewrite bind_run. unfold liftR. by destruct (to_bytes 32 _).
Qed.

Lemma get_videos_hash_ok files w h w' :
  get_videos_hash files w = (Ok h, w') → w' = w.
Proof. intros H. by rewrite <- (get_videos_hash_world files w), H. Qed.

(** C8. For the files of one folder, listed in any order and with any
    repetition, [index] hashes the same canonical list, so the content
    identity is the same, and so is everything the call does and returns,
    the index paths among it. *)
Theorem index_order_independent os self files files' frc split out cmd_args w :
  (∀ f, f ∈ files ↔ f ∈ files') →
  (∀ f g, f ∈ files → g ∈ files → Path.get_folder f = Path.get_folder g) →
  sorted_set files = sorted_set files'
  ∧ get_videos_hash (sorted_set files) w = get_videos_hash (sorted_set files') w
  ∧ index os self files frc split out cmd_args w
    = index os self files' frc split out cmd_args w.
Proof.
  intros Hel Hsame. pose proof (sorted_set_ext _ _ Hel) as Hsort.
  split; [done |]. split; [by rewrite Hsort |].
  rewrite !index_unfold. unfold index_body.
  rewrite (same_folder_single os files Hsame).
  rewrite (same_folder_single os files')
    by (intros f g Hf Hg; apply Hsame; by apply Hel).
  destruct files as [| f0 files], files' as [| f0' files'].
  - done.
  - exfalso. apply (elem_of_nil f0'), Hel. left.
  - exfalso. apply (elem_of_nil f0), Hel. left.
  - rewrite <- Hsort.
    assert (get_out_folder os self out (Some f0)
            = get_out_folder os self out (Some f0')) as ->; [| done].
    destruct out; [| done | done]. cbn [get_out_folder].
    apply Hsame; [left | apply Hel; left].
Qed.

Lemma index_order_independent_witness :
  get_videos_hash (sorted_set [Sample.b; Sample.a; Sample.b]) Sample.w0
  = get_videos_hash (sorted_set [Sample.a; Sample.b]) Sample.w0
  ∧ index Sample.os_fifo Sample.tool [Sample.b; Sample.a; Sample.b]
      false false OF_None [] Sample.w0
    = index Sample.os_fifo Sample.tool [Sample.a; Sample.b]
        false false OF_None [] Sample.w0.
Proof.
  apply (index_order_independent Sample.os_fifo Sample.tool
           [Sample.b; Sample.a; Sample.b] [Sample.a; Sample.b]).
  - intros f. rewrite !elem_of_cons. tauto.
  - intros f g Hf Hg.
    assert (∀ x, x ∈ [Sample.b; Sample.a; Sample.b] →
                 Path.get_folder x = ["/"; "d"]) as Hd.
    { intros x Hx. rewrite !elem_of_cons in Hx.
      destruct Hx as [-> | [-> | [-> | Hx]]];
        [reflexivity .. | by apply elem_of_nil in Hx]. }
    by rewrite (Hd f), (Hd g).
Defined.

(** ** Split mode *)

(** What a successful one-folder call in split mode returns: one path per
    file of the canonical list, each built from the one identity of the
    whole list and the name of its file. *)
Lemma index_split_ok os self file0 rest frc out cmd_args w ps :
  multi_folder os (file0 :: rest) = false →
  (index os self (file0 :: rest) frc true out cmd_args w).1 = Ok ps →
  ∃ h, get_videos_hash (sorted_set (file0 :: rest)) w = (Ok h, w)
       ∧ Forall2 (λ f p,
            get_video_idx_path self (get_out_folder os self out (Some file0)) h
              (AsStr (Path.name f)) = Ok p)
           (sorted_set (file0 :: rest)) ps.
Proof.
  intros Hone. rewrite index_unfold. unfold index_body. rewrite Hone.
  cbn [negb]. intros Hrun.
  match type of Hrun with (?m w).1 = _ => destruct (m w) as [r w'] eqn:Hrun' end.
  cbn [fst] in Hrun. subst r. rename Hrun' into Hrun.
  apply bind_ok_inv in Hrun as (h & w1 & Hh & Hrun).
  pose proof (get_videos_hash_ok _ _ _ _ Hh) as ->.
  apply bind_ok_inv in Hrun as (outputs & w2 & Houts & Hrun).
  apply mapM_liftR_ok in Houts as [-> Houts].
  apply bind_ok_inv in Hrun as (units & w3 & _ & [= <- _]).
  by exists h.
Qed.

Lemma sorted_set_pair a b :
  a ≠ b → sorted_set [a; b] = [a; b] ∨ sorted_set [a; b] = [b; a].
Proof.
  intros Hne. apply Permutation_length_2_inv.
  rewrite sorted_set_Permutation. cbn [remove_dups].
  destruct (decide_rel elem_of a [b]) as [Hin | _];
    [by apply list_elem_of_singleton in Hin |].
  destruct (decide_rel elem_of b []) as [Hin | _];
    [by apply elem_of_nil in Hin | done].
Qed.

(** The identity of a pair: the MD5 of the sum of both sizes, as 32
    little-endian bytes, followed by both names joined with an underscore. *)
Lemma get_videos_hash_pair x y w h :
  get_videos_hash [x; y] w = (Ok h, w) →
  ∃ ix iy size_bytes,
    fs w !! x = Some ix ∧ fs w !! y = Some iy
    ∧ to_bytes 32 (st_size ix + st_size iy) = Ok size_bytes
    ∧ h = MD5.hexdigest
            (size_bytes
             ++ list_byte_of_string (Path.name x +:+ "_" +:+ Path.name y)).
Proof.
  intros Hrun. unfold get_videos_hash in Hrun.
  rewrite bind_run, mapM_cons_run in Hrun.
  unfold stat_size at 1 in Hrun. destruct (fs w !! x) as [ix |] eqn:Hx; [| done].
  rewrite mapM_cons_run in Hrun.
  unfold stat_size at 1 in Hrun. destruct (fs w !! y) as [iy |] eqn:Hy; [| done].
  change (mapM stat_size [] w) with (Ok (@nil N), w) in Hrun.
  cbv beta iota zeta in Hrun.
  rewrite bind_run in Hrun. unfold liftR in Hrun.
  cbn [foldr] in Hrun. rewrite N.add_0_r in Hrun.
  destruct (to_bytes 32 (st_size ix + st_size iy)) as [bs | e] eqn:Hb; [| done].
  injection Hrun as <-. exists ix, iy, bs. repeat split. exact Hb.
Qed.

(** C1 (amended). On two distinct files of one folder, a successful call
    in split mode returns two paths, one per file in canonical order, and
    both carry one and the same content identity: that of the pair, made
    from the sum of the two sizes and from both names. Only the name that
    follows the identity is the file's own. *)
Theorem index_split_pair os self a b frc out cmd_args w ps :
  Path.get_folder a = Path.get_folder b → a ≠ b →
  (index os self [a; b] frc true out cmd_args w).1 = Ok ps →
  ∃ x y h ix iy size_bytes px py,
    sorted_set [a; b] = [x; y]
    ∧ (x = a ∧ y = b ∨ x = b ∧ y = a)
    ∧ get_videos_hash [x; y] w = (Ok h, w)
    ∧ fs w !! x = Some ix ∧ fs w !! y = Some iy
    ∧ to_bytes 32 (st_size ix + st_size iy) = Ok size_bytes
    ∧ h = MD5.hexdigest
            (size_bytes
             ++ list_byte_of_string (Path.name x +:+ "_" +:+ Path.name y))
    ∧ get_video_idx_path self (get_out_folder os self out (Some a)) h
        (AsStr (Path.name x)) = Ok px
    ∧ get_video_idx_path self (get_out_folder os self out (Some a)) h
        (AsStr (Path.name y)) = Ok py
    ∧ ps = [px; py].
Proof.
  intros Hfolder Hne Hrun.
  assert (multi_folder os [a; b] = false) as Hone.
  { apply same_folder_single. intros f g Hf Hg.
    assert (∀ z, z ∈ [a; b] → Path.get_folder z = Path.get_folder a) as Ha.
    { intros z Hz. rewrite !elem_of_cons in Hz.
      destruct Hz as [-> | [-> | Hz]]; [done | done | by apply elem_of_nil in Hz]. }
    by rewrite (Ha f), (Ha g). }
  destruct (index_split_ok _ _ _ _ _ _ _ _ _ Hone Hrun) as (h & Hh & Hps).
  assert (∃ x y, sorted_set [a; b] = [x; y] ∧ (x = a ∧ y = b ∨ x = b ∧ y = a))
    as (x & y & Hxy & Hor).
  { destruct (sorted_set_pair a b Hne) as [H | H]; eauto 6. }
  rewrite Hxy in Hh, Hps.
  destruct (get_videos_hash_pair _ _ _ _ Hh) as (ix & iy & bs & Hx & Hy & Hb & Hmd).
  apply Forall2_cons_inv_l in Hps as (px & ps1 & Hpx & Hps & ->).
  apply Forall2_cons_inv_l in Hps as (py & ps2 & Hpy & Hps & ->).
  apply Forall2_nil_inv_l in Hps as ->.
  exists x, y, h, ix, iy, bs, px, py. done.
Qed.

Lemma index_split_pair_witness :
  ∃ h,
    get_videos_hash [Sample.a; Sample.b] Sample.w0 = (Ok h, Sample.w0)
    ∧ (index Sample.os_fifo Sample.tool [Sample.b; Sample.a] false true OF_None []
         Sample.w0).1
      = Ok [ ["/"; "d"; ".vssource"; h +:+ "_a.dgi"];
             ["/"; "d"; ".vssource"; h +:+ "_b.dgi"] ].
Proof.
  destruct (index_split_pair Sample.os_fifo Sample.tool Sample.b Sample.a
              false OF_None [] Sample.w0
              [ Path.of_str "/d/.vssource/a8c714da8b4ab0a1fc3b6de3ac472a80_a.dgi";
                Path.of_str "/d/.vssource/a8c714da8b4ab0a1fc3b6de3ac472a80_b.dgi" ])
    as (x & y & h & _ & _ & _ & _ & _ & Hsort & _ & Hh & _ & _ & _ & _ & _ & _ & _).
  - reflexivity.
  - discriminate.
  - vm_compute. reflexivity.
  - exists "a8c714da8b4ab0a1fc3b6de3ac472a80".
    split; vm_compute; reflexivity.
Defined.

(** C1 as stated fails: the identity in both returned paths is that of
    the pair, not the identity [get_videos_hash] gives for either file on
    its own. *)
Lemma index_split_identity_counterexample :
  (index Sample.os_fifo Sample.tool [Sample.a; Sample.b] false true OF_None []
     Sample.w0).1
  = Ok [ Path.of_str "/d/.vssource/a8c714da8b4ab0a1fc3b6de3ac472a80_a.dgi";
         Path.of_str "/d/.vssource/a8c714da8b4ab0a1fc3b6de3ac472a80_b.dgi" ]
  ∧ (get_videos_hash [Sample.a; Sample.b] Sample.w0).1
    = Ok "a8c714da8b4ab0a1fc3b6de3ac472a80"
  ∧ (get_videos_hash [Sample.a] Sample.w0).1
    = Ok "22c5396db8d851442a872d62e9e5d4c7"
  ∧ (get_videos_hash [Sample.b] Sample.w0).1
    = Ok "475ec3ee5be19c69263b4f56062e28b2".
Proof. repeat split; vm_compute; reflexivity. Qed.

(** ** One logical unit *)

Lemma popens_app evs evs' : popens (evs ++ evs') = popens evs + popens evs'.
Proof.
  induction evs as [| ev evs IH]; [done |].
  destruct ev; cbn [app popens]; by rewrite IH.
Qed.

Lemma index_unit_absent os self frc cmd_args files output w :
  (is_file output w).1 = Ok false →
  _index os self frc cmd_args files output w
  = _run_index os self files output cmd_args w.
Proof.
  intros Hno. unfold _index. rewrite bind_run.
  unfold is_file in *. destruct (fs w !! output) as [i |]; [| done].
  cbn [fst] in Hno. by injection Hno as ->.
Qed.

Lemma index_unit_present os self frc cmd_args files output w i :
  fs w !! output = Some i → is_dir i = false →
  _index os self frc cmd_args files output w
  = if (st_size i =? 0)%N || frc
    then (unlink output;; _run_index os self files output cmd_args) w
    else rewrite_filenames self output files w.
Proof.
  intros Hi Hfile. unfold _index. rewrite bind_run.
  unfold is_file at 1. rewrite Hi, Hfile. cbn [negb].
  rewrite bind_run. unfold stat_size at 1. rewrite Hi.
  by destruct ((st_size i =? 0)%N || frc).
Qed.

Lemma index_unit_stale os self frc cmd_args files output w i :
  fs w !! output = Some i → is_dir i = false → pinned i = false →
  st_size i = 0%N ∨ frc = true →
  _index os self frc cmd_args files output w
  = _run_index os self files output cmd_args
      {| fs := delete output (fs w); log := log w ++ [EvUnlink output] |}.
Proof.
  intros Hi Hfile Hpin Hstale.
  rewrite (index_unit_present _ _ _ _ _ _ _ _ Hi Hfile).
  assert ((st_size i =? 0)%N || frc = true) as ->.
  { destruct Hstale as [-> | ->]; [done | apply orb_true_r]. }
  rewrite bind_run.
  by rewrite unlink_ok by (unfold can_unlink; by rewrite Hi, Hfile, Hpin).
Qed.

(** C6. A unit whose index file exists is rebuilt when the file is empty
    or [force] is set: [_index], the step [index] takes for each unit,
    removes the file and then starts the tool on the file system without
    it. When the file cannot be removed, the error of [unlink] goes up and
    the tool is not started. [index_joined_rebuild] below carries this to a
    whole call in joined mode. *)
Theorem index_unit_rebuild os self frc cmd_args files output w i :
  fs w !! output = Some i → is_dir i = false →
  st_size i = 0%N ∨ frc = true →
  (pinned i = false →
   _index os self frc cmd_args files output w
   = _run_index os self files output cmd_args
       {| fs := delete output (fs w); log := log w ++ [EvUnlink output] |}
   ∧ log (_index os self frc cmd_args files output w).2
     = log w ++ [EvUnlink output;
                 EvPopen (run_argv self files output cmd_args) (run_cwd output)])
  ∧ (pinned i = true →
     _index os self frc cmd_args files output w = (Raise PermissionError, w)).
Proof.
  intros Hi Hfile Hstale. split; intros Hpin.
  - rewrite (index_unit_stale _ _ _ _ _ _ _ _ Hi Hfile Hpin Hstale).
    split; [done |]. rewrite run_index_run. cbn [snd log].
    by rewrite <- (assoc_L (++)).
  - rewrite (index_unit_present _ _ _ _ _ _ _ _ Hi Hfile).
    assert ((st_size i =? 0)%N || frc = true) as ->.
    { destruct Hstale as [-> | ->]; [done | apply orb_true_r]. }
    rewrite bind_run. unfold unlink. by rewrite Hi, Hfile, Hpin.
Qed.

Lemma index_unit_rebuild_witness :
  log (_index Sample.os_fifo Sample.tool true [] [Sample.a] Sample.idx
         Sample.w_idx).2
  = [EvUnlink Sample.idx;
     EvPopen ["dgindex"; "-o"; "/d/.vssource/0_SINGLE.dgi"; "-i"; "/d/a.mkv"; "-h"]
       "/d/.vssource"]
  ∧ _index Sample.os_fifo Sample.tool true [] [Sample.a] Sample.idx Sample.w_pinned
    = (Raise PermissionError, Sample.w_pinned).
Proof.
  split.
  - apply (index_unit_rebuild Sample.os_fifo Sample.tool true [] [Sample.a]
             Sample.idx Sample.w_idx (Sample.file 7));
      [vm_compute; reflexivity | reflexivity | by right | reflexivity].
  - apply (index_unit_rebuild Sample.os_fifo Sample.tool true [] [Sample.a]
             Sample.idx Sample.w_pinned
             {| is_dir := false; st_size := 7; pinned := true |});
      [vm_compute; reflexivity | reflexivity | by right | reflexivity].
Defined.

Lemma index_unit_keep os self cmd_args files output w i :
  fs w !! output = Some i → is_dir i = false → st_size i ≠ 0%N →
  _index os self false cmd_args files output w
  = rewrite_filenames self output files w.
Proof.
  intros Hi Hfile Hsize.
  rewrite (index_unit_present _ _ _ _ _ _ _ _ Hi Hfile).
  apply N.eqb_neq in Hsize. by rewrite Hsize.
Qed.

(** C7. A unit whose index file exists, is not empty and is not forced is
    reused: [_index] hands the index and the current files to the
    collaborator's rewrite of the recorded names, whether or not they
    changed, and does nothing else; the tool is not started.
    [index_joined_reuse] below carries this to a whole call in joined
    mode. *)
Theorem index_unit_reuse os self cmd_args files output w i :
  fs w !! output = Some i → is_dir i = false → st_size i ≠ 0%N →
  _index os self false cmd_args files output w
  = rewrite_filenames self output files w
  ∧ (_index os self false cmd_args files output w).1
    = (update_video_filenames self output files (fs w)).1
  ∧ fs (_index os self false cmd_args files output w).2
    = (update_video_filenames self output files (fs w)).2
  ∧ log (_index os self false cmd_args files output w).2
    = log w ++ [EvRewrite output files].
Proof.
  intros Hi Hfile Hsize.
  rewrite (index_unit_keep _ _ _ _ _ _ _ Hi Hfile Hsize).
  unfold rewrite_filenames.
  by destruct (update_video_filenames self output files (fs w)).
Qed.

Lemma index_unit_reuse_witness :
  _index Sample.os_fifo Sample.tool false [] [Sample.a] Sample.idx Sample.w_idx
  = (Ok (), {| fs := fs Sample.w_idx;
               log := [EvRewrite Sample.idx [Sample.a]] |}).
Proof.
  destruct (index_unit_reuse Sample.os_fifo Sample.tool [] [Sample.a]
              Sample.idx Sample.w_idx (Sample.file 7)) as (-> & _);
    [vm_compute; reflexivity | reflexivity | discriminate | reflexivity].
Defined.

(** ** Joined mode, and calling [index] twice *)

Lemma index_joined_unit os self file0 rest frc out cmd_args w h output :
  multi_folder os (file0 :: rest) = false →
  (get_videos_hash (sorted_set (file0 :: rest)) w).1 = Ok h →
  get_video_idx_path self (get_out_folder os self out (Some file0)) h
    (AsStr (joined_tag (sorted_set (file0 :: rest)))) = Ok output →
  index os self (file0 :: rest) frc false out cmd_args w
  = (_index os self frc cmd_args (sorted_set (file0 :: rest)) output;;
     mret [output]) w.
Proof.
  intros Hone Hh Hout. rewrite index_unfold. unfold index_body. rewrite Hone.
  cbn [negb]. pose proof (get_videos_hash_world (sorted_set (file0 :: rest)) w) as Hw.
  rewrite bind_run.
  destruct (get_videos_hash (sorted_set (file0 :: rest)) w) as [r w1].
  cbn [fst snd] in Hh, Hw. subst r w1.
  rewrite bind_run. unfold liftR at 1. fold (joined_tag (sorted_set (file0 :: rest))).
  by rewrite Hout.
Qed.

Lemma index_joined_ok os self file0 rest frc out cmd_args w ps :
  multi_folder os (file0 :: rest) = false →
  (index os self (file0 :: rest) frc false out cmd_args w).1 = Ok ps →
  ∃ h output,
    (get_videos_hash (sorted_set (file0 :: rest)) w).1 = Ok h
    ∧ get_video_idx_path self (get_out_folder os self out (Some file0)) h
        (AsStr (joined_tag (sorted_set (file0 :: rest)))) = Ok output
    ∧ ps = [output].
Proof.
  intros Hone. rewrite index_unfold. unfold index_body. rewrite Hone.
  cbn [negb]. intros Hrun.
  match type of Hrun with (?m w).1 = _ => destruct (m w) as [r w'] eqn:Hrun' end.
  cbn [fst] in Hrun. subst r. rename Hrun' into Hrun.
  apply bind_ok_inv in Hrun as (h & w1 & Hh & Hrun).
  apply bind_ok_inv in Hrun as (output & w2 & Hout & Hrun).
  apply bind_ok_inv in Hrun as (u & w3 & _ & [= <- _]).
  unfold liftR in Hout. injection Hout as Hout _.
  exists h, output. by rewrite Hh.
Qed.

Lemma then_ret_world {A B} (m : M A) (b : B) w :
  ((m;; mret b) w).2 = (m w).2.
Proof. rewrite bind_run. by destruct (m w) as [[a | e] w1]. Qed.

(** A one-folder call in joined mode over a stale index: the file is
    removed and the tool is started once, on the canonical file list. *)
Lemma index_joined_rebuild os self file0 rest frc out cmd_args w h output i :
  multi_folder os (file0 :: rest) = false →
  (get_videos_hash (sorted_set (file0 :: rest)) w).1 = Ok h →
  get_video_idx_path self (get_out_folder os self out (Some file0)) h
    (AsStr (joined_tag (sorted_set (file0 :: rest)))) = Ok output →
  fs w !! output = Some i → is_dir i = false → pinned i = false →
  st_size i = 0%N ∨ frc = true →
  log (index os self (file0 :: rest) frc false out cmd_args w).2
  = log w ++ [EvUnlink output;
              EvPopen (run_argv self (sorted_set (file0 :: rest)) output cmd_args)
                (run_cwd output)].
Proof.
  intros Hone Hh Hout Hi Hfile Hpin Hstale.
  rewrite (index_joined_unit _ _ _ _ _ _ _ _ _ _ Hone Hh Hout), then_ret_world.
  rewrite (index_unit_stale _ _ _ _ _ _ _ _ Hi Hfile Hpin Hstale).
  rewrite run_index_run. cbn [snd log]. by rewrite <- (assoc_L (++)).
Qed.

(** A one-folder call in joined mode over a sound index: the recorded
    names are rewritten, the path is returned, the tool is not started. *)
Lemma index_joined_reuse os self file0 rest out cmd_args w h output i :
  multi_folder os (file0 :: rest) = false →
  (get_videos_hash (sorted_set (file0 :: rest)) w).1 = Ok h →
  get_video_idx_path self (get_out_folder os self out (Some file0)) h
    (AsStr (joined_tag (sorted_set (file0 :: rest)))) = Ok output →
  fs w !! output = Some i → is_dir i = false → st_size i ≠ 0%N →
  index os self (file0 :: rest) false false out cmd_args w
  = (rewrite_filenames self output (sorted_set (file0 :: rest));;
     mret [output]) w.
Proof.
  intros Hone Hh Hout Hi Hfile Hsize.
  rewrite (index_joined_unit _ _ _ _ _ _ _ _ _ _ Hone Hh Hout).
  apply bind_pointwise; [| done].
  by apply (index_unit_keep _ _ _ _ _ _ i).
Qed.

Lemma mapM_stat_size_agree files w w' :
  (∀ f, f ∈ files → st_size <$> fs w' !! f = st_size <$> fs w !! f) →
  (mapM stat_size files w').1 = (mapM stat_size files w).1.
Proof.
  induction files as [| f files IH]; intros Hsame; [done |].
  rewrite !mapM_cons_run. unfold stat_size at 1 3.
  pose proof (Hsame f ltac:(left)) as Hf.
  destruct (fs w' !! f) as [i' |], (fs w !! f) as [i |]; try done.
  injection Hf as ->.
  assert ((mapM stat_size files w').1 = (mapM stat_size files w).1) as Htl
    by (apply IH; intros g Hg; apply Hsame; by right).
  destruct (mapM stat_size files w') as [[ys' | e'] w1'],
           (mapM stat_size files w) as [[ys | e] w1];
    cbn [fst] in *; congruence.
Qed.

(** The identity depends on the world through the sizes of the files only. *)
Lemma get_videos_hash_agree files w w' :
  (∀ f, f ∈ files → st_size <$> fs w' !! f = st_size <$> fs w !! f) →
  (get_videos_hash files w').1 = (get_videos_hash files w).1.
Proof.
  intros Hsame. unfold get_videos_hash. rewrite !bind_run.
  pose proof (mapM_stat_size_agree files w w' Hsame) as Hsz.
  destruct (mapM stat_size files w') as [[ys' | e'] w1'],
           (mapM stat_size files w) as [[ys | e] w1];
    cbn [fst] in Hsz; simplify_eq; [| done].
  rewrite !bind_run. unfold liftR. by destruct (to_bytes 32 _).
Qed.

(** One unit starts the tool at most once. *)
Lemma index_unit_popens os self frc cmd_args files output w :
  ∃ evs, log (_index os self frc cmd_args files output w).2 = log w ++ evs
         ∧ (popens evs ≤ 1)%nat.
Proof.
  assert (∃ evs, log (_run_index os self files output cmd_args w).2 = log w ++ evs
                 ∧ (popens evs ≤ 1)%nat) as Hrun.
  { rewrite run_index_run. cbn [snd log]. eexists. split; [done | cbn; lia]. }
  destruct (fs w !! output) as [i |] eqn:Hi.
  - destruct (is_dir i) eqn:Hdir.
    + rewrite index_unit_absent; [done |]. unfold is_file. by rewrite Hi, Hdir.
    + rewrite (index_unit_present _ _ _ _ _ _ _ _ Hi Hdir).
      destruct ((st_size i =? 0)%N || frc).
      * rewrite bind_run. destruct (can_unlink w output) eqn:Hcan.
        -- rewrite unlink_ok by done. rewrite run_index_run. cbn [snd log].
           eexists. rewrite <- (assoc_L (++)). split; [done | cbn; lia].
        -- destruct (unlink_fails _ _ Hcan) as (e & _ & ->).
           exists []. rewrite app_nil_r. split; [done | cbn; lia].
      * unfold rewrite_filenames.
        destruct (update_video_filenames self output files (fs w)).
        eexists. split; [done | cbn; lia].
  - rewrite index_unit_absent; [done |]. unfold is_file. by rewrite Hi.
Qed.

(** C5 (amended). For the files of one folder indexed as one unit (joined
    mode, no [force]): when the first call returns and the world it leaves
    holds a non-empty regular file at the returned path and the source
    files at their old sizes, the second call computes the same path and
    reuses the index: it calls the rewrite of the recorded names and does
    not start the tool, and it returns the same path list unless that
    rewrite raises. Over both calls the tool is started at most once. *)
Theorem index_twice_reuses os self file0 rest out cmd_args w ps w1 :
  multi_folder os (file0 :: rest) = false →
  (index os self (file0 :: rest) false false out cmd_args w).1 = Ok ps →
  w1 = (index os self (file0 :: rest) false false out cmd_args w).2 →
  (∀ f, f ∈ file0 :: rest → st_size <$> fs w1 !! f = st_size <$> fs w !! f) →
  (∀ p, p ∈ ps → ∃ i, fs w1 !! p = Some i ∧ is_dir i = false ∧ st_size i ≠ 0%N) →
  ∃ output evs,
    ps = [output]
    ∧ log w1 = log w ++ evs
    ∧ index os self (file0 :: rest) false false out cmd_args w1
      = (rewrite_filenames self output (sorted_set (file0 :: rest));;
         mret [output]) w1
    ∧ log (index os self (file0 :: rest) false false out cmd_args w1).2
      = log w ++ evs ++ [EvRewrite output (sorted_set (file0 :: rest))]
    ∧ (popens (evs ++ [EvRewrite output (sorted_set (file0 :: rest))]) ≤ 1)%nat
    ∧ ((index os self (file0 :: rest) false false out cmd_args w1).1 = Ok ps
       ∨ ∃ e,
           (update_video_filenames self output (sorted_set (file0 :: rest))
              (fs w1)).1 = Raise e
           ∧ (index os self (file0 :: rest) false false out cmd_args w1).1
             = Raise e).
Proof.
  intros Hone Hps Hw1 Hsizes Hidx.
  destruct (index_joined_ok _ _ _ _ _ _ _ _ _ Hone Hps) as (h & output & Hh & Hout & ->).
  exists output.
  (* the first call *)
  assert (∃ evs, log w1 = log w ++ evs ∧ (popens evs ≤ 1)%nat) as (evs & Hlog & Hcount).
  { rewrite Hw1, (index_joined_unit _ _ _ _ _ _ _ _ _ _ Hone Hh Hout), bind_run.
    destruct (index_unit_popens os self false cmd_args
                (sorted_set (file0 :: rest)) output w) as (evs & Hlog & Hcount).
    destruct (_index _ _ _ _ _ _ w) as [[u | e] w']; by exists evs. }
  exists evs.
  (* the second call meets the index the first one left *)
  assert ((get_videos_hash (sorted_set (file0 :: rest)) w1).1 = Ok h) as Hh1.
  { rewrite <- Hh. apply get_videos_hash_agree. intros f Hf.
    apply Hsizes. by apply elem_of_sorted_set. }
  destruct (Hidx output ltac:(left)) as (i & Hi & Hfile & Hsize).
  pose proof (index_joined_reuse _ _ _ _ _ cmd_args _ _ _ _
                Hone Hh1 Hout Hi Hfile Hsize) as Hrun.
  split; [done |]. split; [done |]. split; [exact Hrun |].
  rewrite Hrun, bind_run. unfold rewrite_filenames.
  destruct (update_video_filenames self output (sorted_set (file0 :: rest)) (fs w1))
    as [[u | e] m]; cbn [fst snd log].
  - rewrite Hlog, <- (assoc_L (++)). split; [done |].
    split; [rewrite popens_app; cbn; lia | by left].
  - rewrite Hlog, <- (assoc_L (++)). split; [done |].
    split; [rewrite popens_app; cbn; lia | right; by exists e].
Qed.

Lemma index_twice_reuses_witness :
  (index Sample.os_fifo Sample.tool [Sample.b; Sample.a] false false OF_None []
     Sample.w0).1
  = Ok [Path.of_str "/d/.vssource/a8c714da8b4ab0a1fc3b6de3ac472a80_JOINED.dgi"]
  ∧ (index Sample.os_fifo Sample.tool [Sample.b; Sample.a] false false OF_None []
       (index Sample.os_fifo Sample.tool [Sample.b; Sample.a] false false
          OF_None [] Sample.w0).2).1
    = Ok [Path.of_str "/d/.vssource/a8c714da8b4ab0a1fc3b6de3ac472a80_JOINED.dgi"]
  ∧ popens
      (log (index Sample.os_fifo Sample.tool [Sample.b; Sample.a] false false
              OF_None []
              (index Sample.os_fifo Sample.tool [Sample.b; Sample.a] false false
                 OF_None [] Sample.w0).2).2)
    = 1%nat.
Proof.
  assert ((index Sample.os_fifo Sample.tool [Sample.b; Sample.a] false false
             OF_None [] Sample.w0).1
          = Ok [Path.of_str
                  "/d/.vssource/a8c714da8b4ab0a1fc3b6de3ac472a80_JOINED.dgi"])
    as Hfirst by (vm_compute; reflexivity).
  destruct (index_twice_reuses Sample.os_fifo Sample.tool Sample.b [Sample.a]
              OF_None [] Sample.w0 _ _ eq_refl Hfirst eq_refl)
    as (output & evs & Hout & _ & _ & _ & _ & Hres).
  - intros f Hf. rewrite !elem_of_cons in Hf.
    destruct Hf as [-> | [-> | Hf]];
      [vm_compute; reflexivity | vm_compute; reflexivity |].
    exfalso. exact (proj1 (elem_of_nil f) Hf).
  - intros p ->%list_elem_of_singleton. exists (Sample.file 100).
    split; [vm_compute; reflexivity |]. split; [reflexivity | discriminate].
  - split; [exact Hfirst |]. split; [| vm_compute; reflexivity].
    destruct Hres as [Hsame | (e & He & _)]; [exact Hsame |].
    vm_compute in He. discriminate He.
Defined.

(** C5 as stated fails. A batch over two folders has two units, and the
    first call alone starts the tool twice. And where the tool reports
    success without leaving an index, the second call of a one-file batch
    finds nothing to reuse and starts it again. *)
Lemma index_twice_counterexample :
  (index Sample.os_fifo Sample.tool [Sample.a; Sample.c] false false OF_None []
     Sample.w0).1
  = Ok [ Path.of_str "/d/.vssource/22c5396db8d851442a872d62e9e5d4c7_SINGLE.dgi";
         Path.of_str "/e/.vssource/2e7448edaf03d9a2d9a6ac1f46f6c3fe_SINGLE.dgi" ]
  ∧ popens
      (log (index Sample.os_fifo Sample.tool [Sample.a; Sample.c] false false
              OF_None [] Sample.w0).2)
    = 2%nat
  ∧ (index Sample.os_idle Sample.tool [Sample.a] false false OF_None []
       Sample.w0).1
    = Ok [Path.of_str "/d/.vssource/22c5396db8d851442a872d62e9e5d4c7_SINGLE.dgi"]
  ∧ (index Sample.os_idle Sample.tool [Sample.a] false false OF_None []
       (index Sample.os_idle Sample.tool [Sample.a] false false OF_None []
          Sample.w0).2).1
    = Ok [Path.of_str "/d/.vssource/22c5396db8d851442a872d62e9e5d4c7_SINGLE.dgi"]
  ∧ popens
      (log (index Sample.os_idle Sample.tool [Sample.a] false false OF_None []
              (index Sample.os_idle Sample.tool [Sample.a] false false OF_None []
                 Sample.w0).2).2)
    = 2%nat.
Proof. repeat split; vm_compute; reflexivity. Qed.

(** * More of the code *)

(** ** [_split_lines] *)

Lemma list_index_Some_1 x buff i :
  list_index x buff = Some i →
  buff = take i buff ++ x :: drop (S i) buff ∧ x ∉ take i buff.
Proof.
  revert i. induction buff as [| y rest IH]; intros i; [done |].
  cbn [list_index]. destruct (String.eqb y x) eqn:Hyx.
  - intros [= <-]. apply String.eqb_eq in Hyx as ->.
    split; [done | apply not_elem_of_nil].
  - destruct (list_index x rest) as [j |]; [| done].
    intros [= <-]. destruct (IH j eq_refl) as [Hrest Hnot].
    cbn [take drop app]. split; [by rewrite <- Hrest |].
    apply not_elem_of_cons. split; [| done].
    intros ->. rewrite String.eqb_refl in Hyx. discriminate Hyx.
Qed.

Lemma list_index_Some_2 x before after :
  x ∉ before → list_index x (before ++ x :: after) = Some (length before).
Proof.
  induction before as [| y before IH]; intros Hnot; cbn [app list_index length].
  - by rewrite String.eqb_refl.
  - apply not_elem_of_cons in Hnot as [Hne Hnot].
    destruct (String.eqb y x) eqn:Hyx.
    + apply String.eqb_eq in Hyx. by subst.
    + by rewrite IH.
Qed.

Lemma list_index_None x buff : list_index x buff = None ↔ x ∉ buff.
Proof.
  induction buff as [| y rest IH]; cbn [list_index].
  - split; [intros _; apply not_elem_of_nil | done].
  - rewrite not_elem_of_cons. destruct (String.eqb y x) eqn:Hyx.
    + apply String.eqb_eq in Hyx as ->. split; [done | by intros [? _]].
    + apply String.eqb_neq in Hyx.
      destruct (list_index x rest) as [j |]; cbn.
      * split; [done |]. intros [_ Hnot]. by apply IH in Hnot.
      * split; [| done]. intros _. split; [done | by apply IH].
Qed.

(** X1. [_split_lines] cuts the list at its first empty string: it
    returns [(before, after)] exactly when the list is [before], an empty
    string, [after], with no empty string in [before]. The separator is
    dropped and nothing else is. *)
Theorem split_lines_ok_iff buff before after :
  _split_lines buff = Ok (before, after)
  ↔ buff = before ++ EmptyString :: after ∧ EmptyString ∉ before.
Proof.
  unfold _split_lines. split.
  - destruct (list_index EmptyString buff) as [i |] eqn:Hi; [| done].
    intros [= <- <-]. rewrite Nat.add_1_r. by apply list_index_Some_1.
  - intros [-> Hnot]. rewrite list_index_Some_2 by done.
    rewrite take_app_length.
    by rewrite (drop_app_add' before _ (length before) 1).
Qed.

Lemma split_lines_ok_iff_witness :
  _split_lines ["a"; "b"; EmptyString; "c"; EmptyString; "d"]
  = Ok (["a"; "b"], ["c"; EmptyString; "d"]).
Proof.
  apply (proj2 (split_lines_ok_iff _ ["a"; "b"] ["c"; EmptyString; "d"])).
  split; [reflexivity |].
  intros Hin. rewrite !elem_of_cons in Hin.
  destruct Hin as [H | [H | H]]; [discriminate H | discriminate H |].
  exact (proj1 (elem_of_nil _) H).
Defined.

(** X2. [_split_lines] raises [ValueError] exactly when the list holds
    no empty string; it raises nothing else. *)
Theorem split_lines_error_iff buff :
  (_split_lines buff = Raise ValueError ↔ EmptyString ∉ buff)
  ∧ (∀ e, _split_lines buff = Raise e → e = ValueError).
Proof.
  unfold _split_lines. split.
  - rewrite <- list_index_None.
    by destruct (list_index EmptyString buff).
  - intros e. destruct (list_index EmptyString buff); [done |]. by intros [= <-].
Qed.

Lemma split_lines_error_iff_witness :
  _split_lines ["a"; "b"] = Raise ValueError.
Proof.
  apply (proj2 (proj1 (split_lines_error_iff ["a"; "b"]))).
  intros Hin. rewrite !elem_of_cons in Hin.
  destruct Hin as [H | [H | H]]; [discriminate H | discriminate H |].
  exact (proj1 (elem_of_nil _) H).
Defined.

(** ** Edge cases of [index] and [_index] *)

Lemma index_nil_run os self frc split out cmd_args w :
  index os self [] frc split out cmd_args w = (Raise IndexError, w).
Proof.
  rewrite index_unfold. unfold index_body.
  rewrite (same_folder_single os []); [done |].
  intros f g Hf. by apply elem_of_nil in Hf.
Qed.

(** X3. [index] on an empty list of files raises [IndexError] (from
    [files[0]]) and does nothing else, whatever the other arguments. *)
Theorem index_empty os self frc split out cmd_args w :
  index os self [] frc split out cmd_args w = (Raise IndexError, w).
Proof. apply index_nil_run. Qed.

(** X4. Where the target path holds nothing, or holds a directory,
    [_index] builds the index: it starts the tool once, on the file system
    as it is but for the output folder, and it unlinks and rewrites
    nothing. *)
Theorem index_unit_builds_missing os self frc cmd_args files output w :
  (∀ i, fs w !! output = Some i → is_dir i = true) →
  _index os self frc cmd_args files output w
  = _run_index os self files output cmd_args w
  ∧ log (_index os self frc cmd_args files output w).2
    = log w ++ [EvPopen (run_argv self files output cmd_args) (run_cwd output)]
  ∧ fs (_index os self frc cmd_args files output w).2
    = fs_after (run_outcome os self files output cmd_args w).
Proof.
  intros Hnofile.
  assert (_index os self frc cmd_args files output w
          = _run_index os self files output cmd_args w) as ->.
  { apply index_unit_absent. unfold is_file.
    destruct (fs w !! output) as [i |] eqn:Hi; [| done].
    by rewrite (Hnofile i eq_refl). }
  split; [done |]. by rewrite run_index_run.
Qed.

Lemma index_unit_builds_missing_witness :
  log (_index Sample.os_fifo Sample.tool false ["-x"] [Sample.a] Sample.idx
         Sample.w0).2
  = [EvPopen
       ["dgindex"; "-o"; "/d/.vssource/0_SINGLE.dgi"; "-i"; "/d/a.mkv"; "-x"; "-h"]
       "/d/.vssource"].
Proof.
  apply (index_unit_builds_missing Sample.os_fifo Sample.tool false ["-x"]
           [Sample.a] Sample.idx Sample.w0).
  intros i Hi. vm_compute in Hi. discriminate Hi.
Defined.

(** ** The constructor arguments [index] does not read *)




(** ** Failures of the content identity *)

Lemma mapM_stat_size_missing files f w :
  f ∈ files → fs w !! f = None →
  mapM stat_size files w = (Raise FileNotFoundError, w).
Proof.
  intros Hin Hnone. induction files as [| x files IH];
    [by apply elem_of_nil in Hin |].
  rewrite mapM_cons_run. unfold stat_size at 1.
  destruct (fs w !! x) as [i |] eqn:Hx; [| done].
  apply elem_of_cons in Hin as [-> | Hin]; [congruence |].
  by rewrite IH.
Qed.

Lemma mapM_stat_size_present files sizes w :
  Forall2 (λ f size, st_size <$> fs w !! f = Some size) files sizes →
  mapM stat_size files w = (Ok sizes, w).
Proof.
  induction 1 as [| f size files sizes Hf _ IH]; [done |].
  rewrite mapM_cons_run. unfold stat_size at 1.
  destruct (fs w !! f) as [i |]; [| done]. injection Hf as ->. by rewrite IH.
Qed.

Lemma get_videos_hash_missing files f w :
  f ∈ files → fs w !! f = None →
  get_videos_hash files w = (Raise FileNotFoundError, w).
Proof.
  intros Hin Hnone. unfold get_videos_hash.
  by rewrite bind_run, (mapM_stat_size_missing files f).
Qed.

Lemma get_videos_hash_present files sizes w :
  Forall2 (λ f size, st_size <$> fs w !! f = Some size) files sizes →
  get_videos_hash files w
  = (match to_bytes 32 (foldr N.add 0%N sizes) with
     | Ok size_bytes =>
         Ok (MD5.hexdigest
               (size_bytes ++ list_byte_of_string (get_joined_names files)))
     | Raise e => Raise e
     end, w).
Proof.
  intros Hsizes. unfold get_videos_hash.
  rewrite bind_run, (mapM_stat_size_present files sizes) by done.
  rewrite bind_run. unfold liftR. by destruct (to_bytes 32 _).
Qed.

(** X6. [get_videos_hash] raises [FileNotFoundError] when one of the
    files is missing. When all are there it returns the MD5 of their total
    size, as 32 little-endian bytes, followed by their names joined with
    underscores, and raises [OverflowError] when the total does not fit 32
    bytes. It leaves the world as it was in every case. *)
Theorem get_videos_hash_spec files w :
  (∀ f, f ∈ files → fs w !! f = None →
        get_videos_hash files w = (Raise FileNotFoundError, w))
  ∧ (∀ sizes,
       Forall2 (λ f size, st_size <$> fs w !! f = Some size) files sizes →
       get_videos_hash files w
       = (match to_bytes 32 (foldr N.add 0%N sizes) with
          | Ok size_bytes =>
              Ok (MD5.hexdigest
                    (size_bytes ++ list_byte_of_string (get_joined_names files)))
          | Raise e => Raise e
          end, w))
  ∧ (∀ n, to_bytes 32 n = Raise OverflowError ↔ (2 ^ 256 ≤ n)%N).
Proof.
  split; [| split].
  - intros f. apply get_videos_hash_missing.
  - intros sizes. apply get_videos_hash_present.
  - intros n. unfold to_bytes.
    change (256 ^ N.of_nat 32)%N with (2 ^ 256)%N.
    destruct (N.ltb_spec n (2 ^ 256)); split; try done; lia.
Qed.

Lemma get_videos_hash_spec_witness :
  get_videos_hash [Sample.a; Path.of_str "/d/gone.mkv"] Sample.w0
  = (Raise FileNotFoundError, Sample.w0)
  ∧ (get_videos_hash [Sample.a; Sample.b] Sample.w0).1
    = Ok "a8c714da8b4ab0a1fc3b6de3ac472a80".
Proof.
  destruct (get_videos_hash_spec [Sample.a; Path.of_str "/d/gone.mkv"] Sample.w0)
    as (Hmissing & _ & _).
  destruct (get_videos_hash_spec [Sample.a; Sample.b] Sample.w0)
    as (_ & Hpresent & _).
  split.
  - apply (Hmissing (Path.of_str "/d/gone.mkv")).
    + right. left.
    + vm_compute. reflexivity.
  - rewrite (Hpresent [10%N; 20%N]).
    + vm_compute. reflexivity.
    + repeat constructor.
Defined.

(** X7. When a source file of a one-folder batch is missing, [index]
    raises [FileNotFoundError] before it touches anything: no file is
    unlinked, no index is rewritten and the tool is not started. *)
Theorem index_missing_source os self files f frc split out cmd_args w :
  multi_folder os files = false →
  f ∈ files → fs w !! f = None →
  index os self files frc split out cmd_args w = (Raise FileNotFoundError, w).
Proof.
  intros Hone Hin Hnone. rewrite index_unfold. unfold index_body. rewrite Hone.
  destruct files as [| file0 rest]; [by apply elem_of_nil in Hin |].
  rewrite bind_run.
  by rewrite (get_videos_hash_missing _ f) by (by try apply elem_of_sorted_set).
Qed.

Lemma index_missing_source_witness :
  index Sample.os_fifo Sample.tool [Sample.a; Path.of_str "/d/gone.mkv"]
    true true OF_None [] Sample.w0
  = (Raise FileNotFoundError, Sample.w0).
Proof.
  apply (index_missing_source Sample.os_fifo Sample.tool
           [Sample.a; Path.of_str "/d/gone.mkv"] (Path.of_str "/d/gone.mkv")).
  - vm_compute. reflexivity.
  - right. left.
  - vm_compute. reflexivity.
Defined.

(** ** What the content identity cannot tell apart *)

(** X8. The content identity sees its files through two numbers only,
    the sum of their sizes and their joined names: two lists of files,
    in whatever worlds, with the same total size and the same joined names
    get the same identity, however the sizes and the names are spread over
    the files. *)
Theorem get_videos_hash_collides files files' w w' sizes sizes' :
  Forall2 (λ f size, st_size <$> fs w !! f = Some size) files sizes →
  Forall2 (λ f size, st_size <$> fs w' !! f = Some size) files' sizes' →
  foldr N.add 0%N sizes = foldr N.add 0%N sizes' →
  get_joined_names files = get_joined_names files' →
  (get_videos_hash files w).1 = (get_videos_hash files' w').1.
Proof.
  intros Hsizes Hsizes' Hsum Hnames.
  rewrite (get_videos_hash_present _ _ _ Hsizes).
  rewrite (get_videos_hash_present _ _ _ Hsizes').
  by rewrite Hsum, Hnames.
Qed.

Lemma get_videos_hash_collides_witness :
  (get_videos_hash [Cases.a_b] Cases.w_names).1
  = (get_videos_hash [Cases.a0; Sample.b] Cases.w_names).1.
Proof.
  apply (get_videos_hash_collides [Cases.a_b] [Cases.a0; Sample.b]
           Cases.w_names Cases.w_names [30%N] [10%N; 20%N]).
  - constructor; [vm_compute; reflexivity | constructor].
  - constructor; [vm_compute; reflexivity |].
    constructor; [vm_compute; reflexivity | constructor].
  - reflexivity.
  - reflexivity.
Defined.

(** ** How many paths, and in which order *)

Lemma mapM_ok_Forall {A B} (f : A → M B) (Q : B → Prop) l w ys w' :
  (∀ x w1 y w2, x ∈ l → f x w1 = (Ok y, w2) → Q y) →
  mapM f l w = (Ok ys, w') → Forall Q ys ∧ length ys = length l.
Proof.
  revert w ys w'. induction l as [| x l IH]; intros w ys w' HQ.
  - intros [= <- _]. by split.
  - rewrite mapM_cons_run. destruct (f x w) as [[y | e] w1] eqn:Hx; [| done].
    destruct (mapM f l w1) as [[ys' | e] w2] eqn:Hl; [| done].
    intros [= <- _].
    assert (Forall Q ys' ∧ length ys' = length l) as [HF Hlen].
    { apply (IH w1 ys' w2); [| done].
      intros z w3 y' w4 Hz. apply HQ. by right. }
    split; [| cbn [length]; by rewrite <- Hlen].
    constructor; [| done]. eapply HQ; [left | exact Hx].
Qed.

Lemma length_concat_singletons {A} (ss : list (list A)) :
  Forall (λ s, length s = 1%nat) ss → length (concat ss) = length ss.
Proof.
  induction 1 as [| s ss Hs _ IH]; [done |].
  cbn [concat]. rewrite length_app, Hs, IH. done.
Qed.

(** X9. In split mode a one-folder call that returns gives one path per
    distinct file, in the sorted order of the files and not in the order
    of the call: the i-th path is built from the identity of the whole
    list and the name of the i-th file of the sorted, duplicate-free
    list. *)
Theorem index_split_canonical os self file0 rest frc out cmd_args w ps :
  multi_folder os (file0 :: rest) = false →
  (index os self (file0 :: rest) frc true out cmd_args w).1 = Ok ps →
  length ps = length (remove_dups (file0 :: rest))
  ∧ Sorted path_le (sorted_set (file0 :: rest))
  ∧ NoDup (sorted_set (file0 :: rest))
  ∧ ∃ h,
      (get_videos_hash (sorted_set (file0 :: rest)) w).1 = Ok h
      ∧ Forall2 (λ f p,
           get_video_idx_path self (get_out_folder os self out (Some file0)) h
             (AsStr (Path.name f)) = Ok p)
          (sorted_set (file0 :: rest)) ps.
Proof.
  intros Hone Hrun.
  destruct (index_split_ok _ _ _ _ _ _ _ _ _ Hone Hrun) as (h & Hh & Hps).
  split.
  - rewrite <- (Forall2_length _ _ _ Hps). apply Permutation_length.
    apply sorted_set_Permutation.
  - split; [apply sorted_set_Sorted |]. split; [apply sorted_set_NoDup |].
    exists h. by rewrite Hh.
Qed.

Lemma index_split_canonical_witness :
  (index Sample.os_fifo Sample.tool [Sample.b; Sample.a; Sample.b] false true
     OF_None [] Sample.w0).1
  = Ok [ Path.of_str "/d/.vssource/a8c714da8b4ab0a1fc3b6de3ac472a80_a.dgi";
         Path.of_str "/d/.vssource/a8c714da8b4ab0a1fc3b6de3ac472a80_b.dgi" ]
  ∧ length (remove_dups [Sample.b; Sample.a; Sample.b]) = 2%nat.
Proof.
  assert ((index Sample.os_fifo Sample.tool [Sample.b; Sample.a; Sample.b] false
             true OF_None [] Sample.w0).1
          = Ok [ Path.of_str "/d/.vssource/a8c714da8b4ab0a1fc3b6de3ac472a80_a.dgi";
                 Path.of_str "/d/.vssource/a8c714da8b4ab0a1fc3b6de3ac472a80_b.dgi" ])
    as Hrun by (vm_compute; reflexivity).
  destruct (index_split_canonical Sample.os_fifo Sample.tool Sample.b
              [Sample.a; Sample.b] false OF_None [] Sample.w0 _
              ltac:(vm_compute; reflexivity) Hrun) as (Hlen & _).
  split; [exact Hrun |]. rewrite <- Hlen. reflexivity.
Defined.

(** X10. In joined mode a call that returns gives exactly one path per
    distinct folder of its files, however many files each folder holds. *)
Theorem index_joined_count os self files frc out cmd_args w ps :
  (index os self files frc false out cmd_args w).1 = Ok ps →
  length ps = length (set_list os (folder_str <$> files)).
Proof.
  intros Hrun. destruct (multi_folder os files) eqn:Hmulti.
  - rewrite index_unfold in Hrun. unfold index_body in Hrun.
    rewrite Hmulti in Hrun.
    match type of Hrun with (?m w).1 = _ => destruct (m w) as [r w'] eqn:Hrun' end.
    cbn [fst] in Hrun. subst r.
    apply bind_ok_inv in Hrun' as (ss & w1 & Hss & [= <- _]).
    apply (mapM_ok_Forall _ (λ s, length s = 1%nat)) in Hss as [Hone Hlen].
    + by rewrite length_concat_singletons.
    + intros folder w2 s w3 Hfolder Hsub.
      apply (proj1 (set_list_elem os _ _)) in Hfolder.
      apply list_elem_of_fmap in Hfolder as (f & -> & Hf).
      destruct (filter (λ g, folder_str g = folder_str f) files)
        as [| g0 sub] eqn:Hfilter.
      { exfalso. apply (elem_of_nil f). rewrite <- Hfilter.
        by apply list_elem_of_filter. }
      destruct (index_joined_ok os self g0 sub frc out [] w2 s) as (h & o & _ & _ & ->).
      * rewrite <- Hfilter. apply multi_folder_filter.
      * by rewrite Hsub.
      * done.
  - destruct files as [| file0 rest].
    { rewrite index_nil_run in Hrun. discriminate Hrun. }
    destruct (index_joined_ok _ _ _ _ _ _ _ _ _ Hmulti Hrun) as (h & o & _ & _ & ->).
    unfold multi_folder in Hmulti. apply Nat.ltb_ge in Hmulti.
    assert (folder_str file0 ∈ set_list os (folder_str <$> file0 :: rest)) as Hin.
    { apply (set_list_elem os). left. }
    destruct (set_list os (folder_str <$> file0 :: rest)) as [| x [| y l]];
      [by apply elem_of_nil in Hin | done | cbn in Hmulti; lia].
Qed.

Lemma index_joined_count_witness :
  length
    (set_list Sample.os_fifo
       (folder_str <$> [Sample.a; Sample.c; Sample.b; Sample.a]))
  = 2%nat
  ∧ ∃ ps,
      (index Sample.os_fifo Sample.tool [Sample.a; Sample.c; Sample.b; Sample.a]
         false false OF_None [] Sample.w0).1 = Ok ps
      ∧ length ps = 2%nat.
Proof.
  split; [vm_compute; reflexivity |].
  eexists. split; [vm_compute; reflexivity |].
  rewrite (index_joined_count Sample.os_fifo Sample.tool
             [Sample.a; Sample.c; Sample.b; Sample.a] false OF_None []
             Sample.w0 _ ltac:(vm_compute; reflexivity)).
  vm_compute. reflexivity.
Defined.

(** ** The shape of the content identity *)

Lemma str_all_impl (P Q : ascii → bool) s :
  (∀ c, P c = true → Q c = true) → str_all P s = true → str_all Q s = true.
Proof.
  intros HPQ. induction s as [| c s IH]; [done |]. cbn [str_all].
  rewrite !andb_true_iff. intros [Hc Hs]. split; [by apply HPQ | by apply IH].
Qed.

Lemma length_le_bytes k n : length (MD5.le_bytes k n) = k.
Proof.
  revert n. induction k as [| k IH]; intros n; [done |].
  cbn [MD5.le_bytes length]. by rewrite IH.
Qed.

Lemma Forall_le_bytes k n : Forall (λ b, (b < 256)%N) (MD5.le_bytes k n).
Proof.
  revert n. induction k as [| k IH]; intros n; [constructor |].
  cbn [MD5.le_bytes]. constructor; [| apply IH]. by apply N.mod_lt.
Qed.

Lemma digest_bytes msg :
  length (MD5.digest msg) = 16%nat
  ∧ Forall (λ b, (b < 256)%N) (MD5.digest msg).
Proof.
  unfold MD5.digest.
  destruct (foldl MD5.block_step MD5.init _) as [[[a b] c] d].
  split.
  - by rewrite !length_app, !length_le_bytes.
  - rewrite !Forall_app. repeat split; apply Forall_le_bytes.
Qed.

Lemma hex_digit_is_hex n : (n < 16)%N → is_hex_digit (MD5.hex_digit n) = true.
Proof.
  intros Hn. unfold MD5.hex_digit, is_hex_digit.
  destruct (N.ltb_spec n 10).
  - rewrite N_ascii_embedding by lia.
    apply orb_true_iff. left. apply andb_true_iff.
    split; apply N.leb_le; lia.
  - rewrite N_ascii_embedding by lia.
    apply orb_true_iff. right. apply andb_true_iff.
    split; apply N.leb_le; lia.
Qed.

Lemma hex_format bs :
  Forall (λ b, (b < 256)%N) bs →
  String.length (MD5.hex bs) = (2 * length bs)%nat
  ∧ str_all is_hex_digit (MD5.hex bs) = true.
Proof.
  induction 1 as [| b bs Hb _ [IHlen IHhex]]; [done |].
  cbn [MD5.hex String.length length str_all]. split; [lia |].
  rewrite IHhex, !hex_digit_is_hex; [done | |].
  - by apply N.mod_lt.
  - apply N.Div0.div_lt_upper_bound. lia.
Qed.

Lemma hexdigest_format data :
  String.length (MD5.hexdigest data) = 32%nat
  ∧ str_all is_hex_digit (MD5.hexdigest data) = true.
Proof.
  unfold MD5.hexdigest.
  destruct (digest_bytes (Byte.to_N <$> data)) as [Hlen Hlt].
  destruct (hex_format _ Hlt) as [Hhexlen Hhex].
  by rewrite Hhexlen, Hlen.
Qed.

Lemma get_videos_hash_is_digest files w h :
  (get_videos_hash files w).1 = Ok h → ∃ data, h = MD5.hexdigest data.
Proof.
  unfold get_videos_hash. rewrite bind_run.
  destruct (mapM stat_size files w) as [[sizes | e] w1]; [| done].
  rewrite bind_run. unfold liftR.
  destruct (to_bytes 32 _) as [bs | e]; [| done].
  intros [= <-]. by eexists.
Qed.

(** X11. Every content identity [get_videos_hash] returns is a string of
    exactly 32 characters, each one of [0123456789abcdef]: whatever the
    files are called, the identity holds no path separator and no dot. *)
Theorem get_videos_hash_format files w h :
  (get_videos_hash files w).1 = Ok h →
  String.length h = 32%nat
  ∧ str_all is_hex_digit h = true
  ∧ plain h = true.
Proof.
  intros Hh. apply get_videos_hash_is_digest in Hh as [data ->].
  destruct (hexdigest_format data) as [Hlen Hhex].
  split; [done |]. split; [done |].
  unfold plain, no_sep, no_dot. rewrite !andb_true_iff. repeat split.
  - destruct (MD5.hexdigest data); [discriminate Hlen | done].
  - revert Hhex. apply str_all_impl. intros c.
    destruct (Ascii.eqb_spec c Path.sep) as [-> |]; [by vm_compute | done].
  - revert Hhex. apply str_all_impl. intros c.
    destruct (Ascii.eqb_spec c "."%char) as [-> |]; [by vm_compute | done].
Qed.

Lemma get_videos_hash_format_witness :
  String.length "a8c714da8b4ab0a1fc3b6de3ac472a80" = 32%nat
  ∧ plain "a8c714da8b4ab0a1fc3b6de3ac472a80" = true.
Proof.
  destruct (get_videos_hash_format [Sample.a; Sample.b] Sample.w0
              "a8c714da8b4ab0a1fc3b6de3ac472a80")
    as (Hlen & _ & Hplain).
  - vm_compute. reflexivity.
  - by split.
Defined.

(** ** Strings and path components *)

Lemma app_cons c a b : String c a +:+ b = String c (a +:+ b).
Proof. reflexivity. Qed.

Lemma app_nil_l_str b : EmptyString +:+ b = b.
Proof. reflexivity. Qed.

Lemma str_app_assoc a b c : (a +:+ b) +:+ c = a +:+ (b +:+ c).
Proof.
  induction a as [| x a IH]; [done |]. by rewrite !app_cons, IH.
Qed.

Lemma str_length_app a b :
  String.length (a +:+ b) = (String.length a + String.length b)%nat.
Proof.
  induction a as [| x a IH]; [done |].
  rewrite app_cons. cbn [String.length]. by rewrite IH.
Qed.

Lemma str_all_app P a b : str_all P (a +:+ b) = str_all P a && str_all P b.
Proof.
  induction a as [| x a IH]; [done |].
  rewrite app_cons. cbn [str_all]. by rewrite IH, andb_assoc.
Qed.

Lemma str_all_rev_app P a b :
  str_all P (String.rev_app a b) = str_all P a && str_all P b.
Proof.
  revert b. induction a as [| x a IH]; intros b; [done |].
  cbn [String.rev_app str_all]. rewrite IH. cbn [str_all].
  by destruct (P x), (str_all P a), (str_all P b).
Qed.

Lemma str_all_substring P n m s :
  str_all P s = true → str_all P (String.substring n m s) = true.
Proof.
  revert n m. induction s as [| c s IH]; intros n m.
  - by destruct n, m.
  - cbn [str_all]. rewrite andb_true_iff. intros [Hc Hs].
    destruct n as [| n]; cbn [String.substring].
    + destruct m as [| m]; [done |]. cbn [str_all]. rewrite Hc. by apply IH.
    + by apply IH.
Qed.

(** A string without the separator is one field. *)
Lemma split_go_no_sep cur s :
  no_sep s = true → Str.split_go Path.sep cur s = [String.rev_app cur s].
Proof.
  revert cur. induction s as [| c s IH]; intros cur; [done |].
  unfold no_sep. cbn [str_all Str.split_go String.rev_app].
  rewrite andb_true_iff, negb_true_iff. intros [-> Hs]. by apply IH.
Qed.

Lemma split_go_fields cur s :
  no_sep cur = true → Forall (λ c, no_sep c = true) (Str.split_go Path.sep cur s).
Proof.
  unfold no_sep.
  revert cur. induction s as [| c s IH]; intros cur Hcur; cbn [Str.split_go].
  - constructor; [| constructor]. unfold String.rev.
    by rewrite str_all_rev_app, Hcur.
  - destruct (Ascii.eqb c Path.sep) eqn:Hc.
    + constructor; [| by apply IH]. unfold String.rev.
      by rewrite str_all_rev_app, Hcur.
    + apply IH. cbn [str_all]. by rewrite Hc, Hcur.
Qed.

Lemma no_sep_startswith s : no_sep s = true → Str.startswith Path.sep s = false.
Proof.
  destruct s as [| c s]; [done |]. unfold no_sep. cbn [str_all Str.startswith].
  rewrite andb_true_iff, negb_true_iff. by intros [-> _].
Qed.

Lemma of_str_single s :
  no_sep s = true → s ≠ EmptyString → s ≠ "." → Path.of_str s = [s].
Proof.
  intros Hs Hne Hdot. unfold Path.of_str, Str.split.
  rewrite no_sep_startswith, split_go_no_sep by done.
  cbn [String.rev_app filter list_filter].
  rewrite decide_True by done. done.
Qed.

Lemma is_anchor_two l (a b : string) : Path.is_anchor (l ++ [a; b]) = false.
Proof. by destruct l as [| x [| y l]]. Qed.

Lemma name_two l (a b : string) : Path.name (l ++ [a; b]) = b.
Proof.
  unfold Path.name. rewrite is_anchor_two.
  change (l ++ [a; b]) with (l ++ [a] ++ [b]).
  by rewrite (assoc_L (++) l [a] [b]), last_last.
Qed.

Lemma no_sep_not_root s : no_sep s = true → String.eqb s Path.root = false.
Proof.
  intros Hs. apply String.eqb_neq. intros ->. by vm_compute in Hs.
Qed.

Lemma name_single s : no_sep s = true → Path.name [s] = s.
Proof.
  intros Hs. unfold Path.name, Path.is_anchor. by rewrite no_sep_not_root.
Qed.

(** The name of a path read from a [str] holds no separator. *)
Lemma name_of_str_no_sep s : no_sep (Path.name (Path.of_str s)) = true.
Proof.
  unfold Path.of_str.
  pose proof (split_go_fields EmptyString s eq_refl) as Hfields.
  fold (Str.split Path.sep s) in Hfields.
  set (comps := filter _ (Str.split Path.sep s)).
  assert (Forall (λ c, no_sep c = true) comps) as Hcomps.
  { apply Forall_forall. intros c Hc. apply list_elem_of_filter in Hc as [_ Hc].
    by apply (proj1 (Forall_forall _ _) Hfields). }
  assert (no_sep (List.last comps EmptyString) = true) as Hlast.
  { clearbody comps. induction Hcomps as [| c comps Hc _ IH]; [done |].
    destruct comps; [done | exact IH]. }
  destruct (Str.startswith Path.sep s).
  - unfold Path.name. destruct comps as [| c comps']; [done |].
    exact Hlast.
  - unfold Path.name. destruct comps as [| c [| d comps']]; [done | | exact Hlast].
    cbn [Path.is_anchor]. destruct (String.eqb c Path.root); [done | exact Hlast].
Qed.

Lemma stem_no_sep p : no_sep (Path.name p) = true → no_sep (Path.stem p) = true.
Proof.
  intros Hname. unfold Path.stem.
  destruct (Path.suffix_at (Path.name p)); [| done].
  by apply str_all_substring.
Qed.

(** ** Where an index goes *)

Lemma filename_single h st :
  no_sep h = true → no_sep st = true →
  Path.of_str (h +:+ "_" +:+ st) = [h +:+ "_" +:+ st].
Proof.
  intros Hh Hst. apply of_str_single.
  - unfold no_sep in *. by rewrite !str_all_app, Hh, Hst.
  - by destruct h.
  - destruct h as [| c [| d h]]; [done | | done].
    rewrite app_cons, app_nil_l_str. by destruct st.
Qed.

Lemma get_video_idx_path_run self folder h v :
  no_sep h = true → no_sep (Path.stem (SPath_of v)) = true →
  get_video_idx_path self folder h v
  = get_idx_file_path self
      (folder ++ [index_folder_name; h +:+ "_" +:+ Path.stem (SPath_of v)]).
Proof.
  intros Hh Hst. unfold get_video_idx_path. f_equal.
  change (Str.join "_" [h; Path.stem (SPath_of v)])
    with (h +:+ "_" +:+ Path.stem (SPath_of v)).
  change (Path.truediv folder index_folder_name)
    with (folder ++ [index_folder_name]).
  unfold Path.truediv. rewrite filename_single by done.
  rewrite no_sep_startswith
    by (unfold no_sep in *; by rewrite !str_all_app, Hh, Hst).
  by rewrite <- (assoc_L (++)).
Qed.

Lemma get_idx_file_path_two self folder (a fn : string) p :
  no_sep fn = true →
  get_idx_file_path self (folder ++ [a; fn]) = Ok p →
  p = folder ++ [a; Path.stem [fn] +:+ "." +:+ ext self].
Proof.
  intros Hfn. unfold get_idx_file_path, Path.with_suffix.
  rewrite name_two.
  destruct (existsb _ _); [done |]. destruct (_ || _); [done |].
  destruct (negb (Str.truthy fn)); [done |].
  intros [= <-].
  change (folder ++ [a; fn]) with (folder ++ [a] ++ [fn]).
  rewrite (assoc_L (++) folder [a] [fn]), removelast_last.
  rewrite <- (assoc_L (++)). cbn [app]. do 3 f_equal.
  unfold Path.stem. rewrite name_single by done.
  by destruct (Path.suffix_at fn).
Qed.

(** X12. An index path made for a video name given as a [str], under an
    identity without a path separator, lies directly in the [.vssource]
    folder of the folder it is made for; its name is the identity, an
    underscore and the stem of the video name, cut at their last dot, then
    a dot and the extension of the indexer. *)
Theorem get_video_idx_path_location self folder h v p :
  no_sep h = true →
  get_video_idx_path self folder h (AsStr v) = Ok p →
  p = folder
      ++ [index_folder_name;
          Path.stem [h +:+ "_" +:+ Path.stem (Path.of_str v)]
          +:+ "." +:+ ext self]
  ∧ in_cache p.
Proof.
  intros Hh Hp.
  assert (no_sep (Path.stem (SPath_of (AsStr v))) = true) as Hst
    by apply stem_no_sep, name_of_str_no_sep.
  rewrite get_video_idx_path_run in Hp by done.
  apply get_idx_file_path_two in Hp.
  - split; [exact Hp |]. rewrite Hp. by eexists _, _.
  - cbn [SPath_of] in *. unfold no_sep in *. by rewrite !str_all_app, Hh, Hst.
Qed.

Lemma get_video_idx_path_location_witness :
  get_video_idx_path Sample.tool ["/"; "d"] "0123" (AsStr "clip.part1.mkv")
  = Ok ["/"; "d"; ".vssource"; "0123_clip.dgi"].
Proof.
  assert (∃ p, get_video_idx_path Sample.tool ["/"; "d"] "0123"
                 (AsStr "clip.part1.mkv") = Ok p) as [p Hp]
    by (eexists; vm_compute; reflexivity).
  destruct (get_video_idx_path_location Sample.tool ["/"; "d"] "0123"
              "clip.part1.mkv" p eq_refl Hp) as [Hloc _].
  rewrite Hp, Hloc. vm_compute. reflexivity.
Defined.

(** ** What [index] may touch *)

Lemma emits_bind_post {A B} (P : event → Prop) (Q : A → Prop)
    (m : M A) (k : A → M B) :
  (∀ w a w', m w = (Ok a, w') → Q a) →
  emits P m → (∀ a, Q a → emits P (k a)) → emits P (m ≫= k).
Proof.
  intros HQ Hm Hk w. rewrite bind_run. destruct (Hm w) as (evs & Hlog & HP).
  destruct (m w) as [[a | e] w1] eqn:Hrun; cbn [snd] in *.
  - destruct (Hk a (HQ _ _ _ Hrun) w1) as (evs' & Hlog' & HP').
    exists (evs ++ evs'). rewrite Hlog', Hlog, (assoc_L (++)).
    split; [done | by apply Forall_app].
  - by exists evs.
Qed.

Lemma emits_index_unit_any (P : event → Prop) os self frc cmd_args files output :
  P (EvUnlink output) → P (EvRewrite output files) →
  P (EvPopen (run_argv self files output cmd_args) (run_cwd output)) →
  emits P (_index os self frc cmd_args files output).
Proof.
  intros Hunlink Hrewrite Hpopen.
  assert (emits P (_run_index os self files output cmd_args)) as Hrun
    by by apply emits_run_index.
  unfold _index. apply emits_bind; [apply emits_is_file |]. intros [|]; [| done].
  apply emits_bind; [apply emits_stat_size |]. intros size.
  destruct ((size =? 0)%N || frc).
  - apply emits_bind; [by apply emits_unlink | done].
  - by apply emits_rewrite_filenames.
Qed.

Lemma get_videos_hash_no_sep files w h w' :
  get_videos_hash files w = (Ok h, w') → no_sep h = true.
Proof.
  intros Hh.
  destruct (get_videos_hash_is_digest files w h) as [data ->]; [by rewrite Hh |].
  destruct (hexdigest_format data) as [_ Hhex]. revert Hhex.
  apply str_all_impl. intros c.
  destruct (Ascii.eqb_spec c Path.sep) as [-> |]; [by vm_compute | done].
Qed.

Lemma idx_path_in_cache self folder h v p :
  no_sep h = true →
  get_video_idx_path self folder h (AsStr v) = Ok p → in_cache p.
Proof.
  intros Hh Hp.
  assert (no_sep (Path.stem (SPath_of (AsStr v))) = true) as Hst
    by apply stem_no_sep, name_of_str_no_sep.
  rewrite get_video_idx_path_run in Hp by done.
  apply get_idx_file_path_two in Hp.
  - rewrite Hp. by eexists _, _.
  - unfold no_sep in *. by rewrite !str_all_app, Hh, Hst.
Qed.

Lemma emits_index_unit_cache os self frc cmd_args files output :
  in_cache output →
  emits stays_in_cache (_index os self frc cmd_args files output).
Proof.
  intros Hcache. apply emits_index_unit_any; [done | done |].
  destruct Hcache as (folder & nm & ->). exists folder.
  unfold run_cwd, Path.get_folder, Path.parent. rewrite is_anchor_two.
  change (folder ++ [index_folder_name; nm])
    with (folder ++ [index_folder_name] ++ [nm]).
  by rewrite (assoc_L (++)), removelast_last.
Qed.

Lemma emits_index_body_cache (rec : index_fn) os self files frc split out cmd_args :
  (∀ files', emits stays_in_cache (rec files' frc split out [])) →
  emits stays_in_cache (index_body rec os self files frc split out cmd_args).
Proof.
  intros Hrec. unfold index_body. destruct (multi_folder os files).
  - apply emits_bind; [| intros; apply emits_ret].
    apply emits_mapM. intros; apply Hrec.
  - destruct files as [| file0 files]; [apply emits_raise |].
    eapply (emits_bind_post _ (λ h, no_sep h = true));
      [apply get_videos_hash_no_sep | apply emits_get_videos_hash |].
    intros h Hh. destruct split; cbn [negb].
    + eapply (emits_bind_post _ (Forall in_cache)).
      * intros w1 outputs w2 Houts. apply mapM_liftR_ok in Houts as [_ Houts].
        induction Houts as [| f o fs os' Ho _ IH]; constructor; [| done].
        by apply (idx_path_in_cache _ _ _ _ _ Hh Ho).
      * apply emits_mapM. intros; apply emits_liftR.
      * intros outputs Houts. apply emits_bind; [| intros; apply emits_ret].
        apply emits_mapM. intros [f o] Hfo. apply emits_index_unit_cache.
        apply (proj1 (Forall_forall _ _) Houts). cbn [snd].
        by apply elem_of_zip_r in Hfo.
    + eapply (emits_bind_post _ in_cache).
      * intros w1 output w2 [= Ho _]. by apply (idx_path_in_cache _ _ _ _ _ Hh Ho).
      * apply emits_liftR.
      * intros output Ho.
        apply emits_bind; [by apply emits_index_unit_cache | intros; apply emits_ret].
Qed.

Lemma emits_index_at_cache depth os self files frc split out cmd_args :
  emits stays_in_cache (index_at depth os self files frc split out cmd_args).
Proof.
  revert files cmd_args. induction depth as [| depth IH]; intros files cmd_args.
  - apply emits_raise.
  - cbn [index_at]. apply emits_index_body_cache. intros; apply IH.
Qed.

(** X13. Whatever its arguments and however it ends, [index] unlinks and
    rewrites nothing but entries of a [.vssource] folder, and starts the
    tool nowhere but in such a folder: every event it adds to the log
    stays in an index folder, and it removes none. *)
Theorem index_stays_in_cache os self files frc split out cmd_args w :
  ∃ evs,
    log (index os self files frc split out cmd_args w).2 = log w ++ evs
    ∧ Forall stays_in_cache evs.
Proof. apply emits_index_at_cache. Qed.

(** ** Suffixes *)

Lemma rfind_no_dot s : no_dot s = true → Str.rfind "."%char s = None.
Proof.
  induction s as [| c s IH]; [done |]. unfold no_dot in *. cbn [str_all Str.rfind].
  rewrite andb_true_iff, negb_true_iff. intros [-> Hs]. by rewrite IH.
Qed.

Lemma rfind_last_dot a e :
  no_dot e = true →
  Str.rfind "."%char (a +:+ "." +:+ e) = Some (String.length a).
Proof.
  intros He. induction a as [| c a IH].
  - rewrite app_nil_l_str, app_cons, app_nil_l_str. cbn [Str.rfind].
    by rewrite rfind_no_dot.
  - rewrite app_cons. cbn [Str.rfind String.length]. by rewrite IH.
Qed.

Lemma substring_prefix a b : String.substring 0 (String.length a) (a +:+ b) = a.
Proof.
  induction a as [| c a IH].
  - cbn [String.length]. by destruct (EmptyString +:+ b).
  - rewrite app_cons. cbn [String.length String.substring]. by rewrite IH.
Qed.

Lemma length_substring_prefix i s :
  (i ≤ String.length s)%nat → String.length (String.substring 0 i s) = i.
Proof.
  revert i. induction s as [| c s IH]; intros i Hi.
  - cbn in Hi. by replace i with 0%nat by lia.
  - destruct i as [| i]; [done |]. cbn [String.substring String.length] in *.
    rewrite IH; [done | lia].
Qed.

Lemma substring_prefix_app i s :
  (i ≤ String.length s)%nat →
  ∃ b, s = String.substring 0 i s +:+ b.
Proof.
  revert i. induction s as [| c s IH]; intros i Hi.
  - exists EmptyString. cbn in Hi. by replace i with 0%nat by lia.
  - destruct i as [| i]; [by eexists |]. cbn [String.substring String.length] in *.
    destruct (IH i) as [b Hb]; [lia |]. exists b. by rewrite app_cons, <- Hb.
Qed.

(** The suffix of [a.e] starts after [a], when [e] is not empty and has
    no dot, and [a] is not empty. *)
Lemma suffix_at_dotted a e :
  a ≠ EmptyString → e ≠ EmptyString → no_dot e = true →
  Path.suffix_at (a +:+ "." +:+ e) = Some (String.length a).
Proof.
  intros Ha He Hdot. unfold Path.suffix_at. rewrite rfind_last_dot by done.
  rewrite !str_length_app.
  assert (0 < String.length a)%nat by (destruct a; [done | cbn; lia]).
  assert (0 < String.length e)%nat by (destruct e; [done | cbn; lia]).
  rewrite (proj2 (Nat.ltb_lt _ _)) by done.
  rewrite (proj2 (Nat.ltb_lt _ _)) by (cbn [String.length]; lia). done.
Qed.

Lemma not_root_dotted a e : String.eqb (a +:+ "." +:+ e) Path.root = false.
Proof.
  apply String.eqb_neq. destruct a as [| c [| d a]]; [done | | done].
  rewrite app_cons, app_nil_l_str. done.
Qed.

Lemma stem_dotted a e :
  a ≠ EmptyString → e ≠ EmptyString → no_dot e = true →
  Path.stem [a +:+ "." +:+ e] = a.
Proof.
  intros Ha He Hdot. unfold Path.stem, Path.name, Path.is_anchor.
  rewrite not_root_dotted. cbn [List.last].
  rewrite suffix_at_dotted by done. apply substring_prefix.
Qed.

Lemma stem_no_dot s : no_dot s = true → no_sep s = true → Path.stem [s] = s.
Proof.
  intros Hdot Hsep. unfold Path.stem. rewrite name_single by done.
  unfold Path.suffix_at. by rewrite rfind_no_dot.
Qed.

Lemma plain_parts s :
  plain s = true → s ≠ EmptyString ∧ no_sep s = true ∧ no_dot s = true.
Proof.
  unfold plain. rewrite !andb_true_iff. intros [[Hs ?] ?].
  split; [by intros -> | done].
Qed.

(** ** Names that share an index *)

(** X14. The name of an index loses what follows the last dot of the
    stem of the video name. A video called [n.t.e] and one called [n.e']
    (the parts plain: not empty, no dot, no separator) get one and the
    same index path under the same identity and folder, so that in split
    mode two such files of one batch share an index file. *)
Theorem get_video_idx_path_dotted_stem self folder h n t e e' :
  plain h = true → plain n = true → plain t = true →
  plain e = true → plain e' = true →
  get_video_idx_path self folder h (AsStr (n +:+ "." +:+ t +:+ "." +:+ e))
  = get_video_idx_path self folder h (AsStr (n +:+ "." +:+ e'))
  ∧ ∀ p, get_video_idx_path self folder h (AsStr (n +:+ "." +:+ e')) = Ok p →
         p = folder ++ [index_folder_name; h +:+ "_" +:+ n +:+ "." +:+ ext self].
Proof.
  intros Hh Hn Ht He He'.
  apply plain_parts in Hh as (Hh0 & Hhsep & Hhdot).
  apply plain_parts in Hn as (Hn0 & Hnsep & Hndot).
  apply plain_parts in Ht as (Ht0 & Htsep & Htdot).
  apply plain_parts in He as (He0 & Hesep & Hedot).
  apply plain_parts in He' as (He0' & Hesep' & Hedot').
  (* the stems of the two video names *)
  assert (Path.stem (Path.of_str (n +:+ "." +:+ t +:+ "." +:+ e)) = n +:+ "." +:+ t)
    as Hstem1.
  { rewrite of_str_single.
    - rewrite <- (str_app_assoc n "." (t +:+ "." +:+ e)).
      rewrite <- (str_app_assoc (n +:+ ".") t ("." +:+ e)).
      rewrite (str_app_assoc n "." t).
      apply stem_dotted; [by destruct n | done | done].
    - unfold no_sep in *. by rewrite !str_all_app, Hnsep, Htsep, Hesep.
    - by destruct n.
    - destruct n as [| c [| d n]]; [done | | done].
      rewrite app_cons, app_nil_l_str. by destruct t. }
  assert (Path.stem (Path.of_str (n +:+ "." +:+ e')) = n) as Hstem2.
  { rewrite of_str_single.
    - by apply stem_dotted.
    - unfold no_sep in *. by rewrite !str_all_app, Hnsep, Hesep'.
    - by destruct n.
    - destruct n as [| c [| d n]]; [done | | done].
      rewrite app_cons, app_nil_l_str. by destruct e'. }
  (* the stems of the two file names *)
  assert (Path.stem [h +:+ "_" +:+ n +:+ "." +:+ t] = h +:+ "_" +:+ n) as Hfile1.
  { rewrite <- (str_app_assoc h "_" (n +:+ "." +:+ t)).
    rewrite <- (str_app_assoc (h +:+ "_") n ("." +:+ t)).
    rewrite (str_app_assoc h "_" n).
    apply stem_dotted; [by destruct h | done | done]. }
  assert (Path.stem [h +:+ "_" +:+ n] = h +:+ "_" +:+ n) as Hfile2.
  { apply stem_no_dot.
    - unfold no_dot in *. by rewrite !str_all_app, Hhdot, Hndot.
    - unfold no_sep in *. by rewrite !str_all_app, Hhsep, Hnsep. }
  assert (∀ self' fn fn', no_sep fn = true → no_sep fn' = true →
            fn ≠ EmptyString → fn' ≠ EmptyString →
            Path.stem [fn] = Path.stem [fn'] →
            get_idx_file_path self' (folder ++ [index_folder_name; fn])
            = get_idx_file_path self' (folder ++ [index_folder_name; fn'])) as Hsame.
  { intros self' fn fn' Hfn Hfn' Hne Hne' Heq.
    unfold get_idx_file_path, Path.with_suffix.
    rewrite !name_two.
    assert (Str.truthy fn = true ∧ Str.truthy fn' = true) as [-> ->]
      by (by destruct fn, fn').
    change (folder ++ [index_folder_name; fn])
      with (folder ++ [index_folder_name] ++ [fn]).
    change (folder ++ [index_folder_name; fn'])
      with (folder ++ [index_folder_name] ++ [fn']).
    rewrite !(assoc_L (++)), !removelast_last.
    unfold Path.stem in Heq. rewrite !name_single in Heq by done.
    destruct (existsb _ _); [done |]. destruct (_ || _); [done |]. cbn [negb].
    do 3 f_equal.
    destruct (Path.suffix_at fn), (Path.suffix_at fn'); by rewrite Heq. }
  assert (no_sep (h +:+ "_" +:+ n +:+ "." +:+ t) = true) as Hsep1
    by (unfold no_sep in *; by rewrite !str_all_app, Hhsep, Hnsep, Htsep).
  assert (no_sep (h +:+ "_" +:+ n) = true) as Hsep2
    by (unfold no_sep in *; by rewrite !str_all_app, Hhsep, Hnsep).
  split.
  - rewrite !get_video_idx_path_run; cbn [SPath_of];
      rewrite ?Hstem1, ?Hstem2; try done.
    + apply Hsame; [done | done | by destruct h | by destruct h |].
      by rewrite Hfile1, Hfile2.
    + unfold no_sep in *. by rewrite !str_all_app, Hnsep, Htsep.
  - intros p. rewrite get_video_idx_path_run; cbn [SPath_of];
      rewrite ?Hstem2; try done.
    intros Hp. apply get_idx_file_path_two in Hp; [| done].
    by rewrite Hfile2, str_app_assoc, str_app_assoc in Hp.
Qed.

Lemma get_video_idx_path_dotted_stem_witness :
  get_video_idx_path Sample.tool ["/"; "d"] "0123" (AsStr "x.1.mkv")
  = Ok ["/"; "d"; ".vssource"; "0123_x.dgi"]
  ∧ get_video_idx_path Sample.tool ["/"; "d"] "0123" (AsStr "x.mkv")
    = Ok ["/"; "d"; ".vssource"; "0123_x.dgi"].
Proof.
  destruct (get_video_idx_path_dotted_stem Sample.tool ["/"; "d"]
              "0123" "x" "1" "mkv" "mkv" eq_refl eq_refl eq_refl eq_refl eq_refl)
    as [Hsame Hpath].
  assert (get_video_idx_path Sample.tool ["/"; "d"] "0123" (AsStr "x.mkv")
          = Ok ["/"; "d"; ".vssource"; "0123_x.dgi"]) as Hshort
    by (vm_compute; reflexivity).
  split; [| exact Hshort]. etransitivity; [exact Hsame | exact Hshort].
Defined.

(** ** The extension *)

Lemma suffix_at_Some nm i :
  Path.suffix_at nm = Some i → (0 < i ∧ i < String.length nm)%nat.
Proof.
  unfold Path.suffix_at. destruct (Str.rfind _ nm) as [j |]; [| done].
  destruct (0 <? j)%nat eqn:H0; [| done].
  destruct (j <? String.length nm - 1)%nat eqn:H1; [| done].
  intros [= <-]. apply Nat.ltb_lt in H0, H1. lia.
Qed.

Lemma name_snoc l (x : string) :
  String.eqb x Path.root = false → Path.name (l ++ [x]) = x.
Proof.
  intros Hx. unfold Path.name.
  assert (Path.is_anchor (l ++ [x]) = false) as ->.
  { destruct l as [| y [| z l]]; [exact Hx | done | done]. }
  apply last_last.
Qed.

(** X15. Giving an index path the extension of the indexer a second time
    changes nothing: when the extension is not empty and has no dot,
    [get_idx_file_path] maps every path it returns to itself. *)
Theorem get_idx_file_path_idempotent self p q :
  ext self ≠ EmptyString → no_dot (ext self) = true →
  get_idx_file_path self p = Ok q → get_idx_file_path self q = Ok q.
Proof.
  intros Hext Hdot. unfold get_idx_file_path, Path.with_suffix.
  destruct (existsb _ _) eqn:Hsep; [done |].
  destruct (_ || _) eqn:Hvalid; [done |].
  destruct (negb (Str.truthy (Path.name p))) eqn:Hname; [done |].
  apply negb_false_iff in Hname.
  assert (∃ base, base ≠ EmptyString
            ∧ match Path.suffix_at (Path.name p) with
              | Some i => String.substring 0 i (Path.name p) +:+ "." +:+ ext self
              | None => Path.name p +:+ "." +:+ ext self
              end = base +:+ "." +:+ ext self) as (base & Hbase & ->).
  { destruct (Path.suffix_at (Path.name p)) as [i |] eqn:Hi.
    - eexists. split; [| done]. apply suffix_at_Some in Hi as [Hpos Hlt].
      intros Hempty.
      pose proof (length_substring_prefix i (Path.name p) ltac:(lia)) as Hlen.
      rewrite Hempty in Hlen. cbn in Hlen. lia.
    - eexists. split; [| done]. by destruct (Path.name p). }
  intros [= <-].
  rewrite name_snoc by apply not_root_dotted.
  assert (Str.truthy (base +:+ "." +:+ ext self) = true) as ->
    by (by destruct base).
  cbn [negb]. rewrite suffix_at_dotted, substring_prefix by done.
  by rewrite removelast_last.
Qed.

Lemma get_idx_file_path_idempotent_witness :
  get_idx_file_path Sample.tool (Path.of_str "/d/.vssource/0_clip.part1")
  = Ok (Path.of_str "/d/.vssource/0_clip.dgi")
  ∧ get_idx_file_path Sample.tool (Path.of_str "/d/.vssource/0_clip.dgi")
    = Ok (Path.of_str "/d/.vssource/0_clip.dgi").
Proof.
  assert (get_idx_file_path Sample.tool (Path.of_str "/d/.vssource/0_clip.part1")
          = Ok (Path.of_str "/d/.vssource/0_clip.dgi")) as Hfirst
    by (vm_compute; reflexivity).
  split; [exact Hfirst |].
  apply (get_idx_file_path_idempotent Sample.tool
           (Path.of_str "/d/.vssource/0_clip.part1"));
    [discriminate | reflexivity | exact Hfirst].
Defined.

Lemma existsb_sep s :
  existsb (Ascii.eqb Path.sep) (list_ascii_of_string s) = negb (no_sep s).
Proof.
  induction s as [| c s IH]; [done |]. unfold no_sep in *.
  cbn [list_ascii_of_string existsb str_all]. rewrite IH, (Ascii.eqb_sym Path.sep c).
  by destruct (Ascii.eqb c Path.sep), (str_all _ s).
Qed.

Lemma get_idx_file_path_bad_ext self p :
  ext self = EmptyString ∨ no_sep (ext self) = false →
  get_idx_file_path self p = Raise ValueError.
Proof.
  unfold get_idx_file_path, Path.with_suffix. intros [-> | Hsep].
  - by vm_compute.
  - rewrite existsb_sep. unfold no_sep in *. rewrite str_all_app.
    change (str_all _ "."%string) with true. cbn [andb]. by rewrite Hsep.
Qed.

(** X16. With an extension that is empty or holds a path separator no
    index can be named: once the identity of a one-folder batch is
    computed, [index] raises [ValueError] and leaves the world as it was,
    in joined and in split mode alike. *)
Theorem index_bad_ext os self file0 rest frc split out cmd_args w h :
  ext self = EmptyString ∨ no_sep (ext self) = false →
  multi_folder os (file0 :: rest) = false →
  (get_videos_hash (sorted_set (file0 :: rest)) w).1 = Ok h →
  index os self (file0 :: rest) frc split out cmd_args w = (Raise ValueError, w).
Proof.
  intros Hext Hone Hh. rewrite index_unfold. unfold index_body. rewrite Hone.
  pose proof (get_videos_hash_world (sorted_set (file0 :: rest)) w) as Hw.
  rewrite bind_run.
  destruct (get_videos_hash (sorted_set (file0 :: rest)) w) as [r w1].
  cbn [fst snd] in Hh, Hw. subst r w1.
  assert (∀ folder v, get_video_idx_path self folder h v = Raise ValueError)
    as Hbad by (intros; by apply get_idx_file_path_bad_ext).
  destruct split; cbn [negb].
  - destruct (sorted_set (file0 :: rest)) as [| f files] eqn:Hsorted;
      [by apply sorted_set_nil_inv in Hsorted |].
    rewrite bind_run, mapM_cons_run. unfold liftR at 1. by rewrite Hbad.
  - rewrite bind_run. unfold liftR at 1. by rewrite Hbad.
Qed.

Lemma index_bad_ext_witness :
  index Sample.os_fifo
    (with_options
       {| bin_path := bin_path Sample.tool; ext := EmptyString; force := true;
          default_out_folder := OF_None;
          _default_args := _default_args Sample.tool;
          get_cmd := get_cmd Sample.tool;
          update_video_filenames := update_video_filenames Sample.tool |}
       true OF_None)
    [Sample.a; Sample.b] false true OF_None [] Sample.w0
  = (Raise ValueError, Sample.w0).
Proof.
  apply (index_bad_ext _ _ Sample.a [Sample.b] false true OF_None [] Sample.w0
           "a8c714da8b4ab0a1fc3b6de3ac472a80").
  - by left.
  - vm_compute. reflexivity.
  - vm_compute. reflexivity.
Defined.

(** ** How often the tool is started *)

Lemma mapM_popens {A B} (f : A → M B) (g : B → nat) l w ys w' :
  (∀ x w1 y w2, x ∈ l → f x w1 = (Ok y, w2) →
     ∃ evs, log w2 = log w1 ++ evs ∧ (popens evs ≤ g y)%nat) →
  mapM f l w = (Ok ys, w') →
  length ys = length l
  ∧ ∃ evs, log w' = log w ++ evs ∧ (popens evs ≤ sum_list (g <$> ys))%nat.
Proof.
  revert w ys w'. induction l as [| x l IH]; intros w ys w' Hf.
  - intros [= <- <-]. split; [done |]. exists []. by rewrite app_nil_r.
  - rewrite mapM_cons_run. destruct (f x w) as [[y | e] w1] eqn:Hx; [| done].
    destruct (mapM f l w1) as [[ys' | e] w2] eqn:Hl; [| done].
    intros [= <- <-].
    destruct (Hf x w y w1 ltac:(left) Hx) as (evs1 & Hlog1 & Hn1).
    destruct (IH w1 ys' w2) as (Hlen & evs2 & Hlog2 & Hn2); [| done |].
    { intros z w3 y' w4 Hz. apply Hf. by right. }
    split; [cbn [length]; by rewrite Hlen |].
    exists (evs1 ++ evs2). rewrite Hlog2, Hlog1, (assoc_L (++)).
    split; [done |]. rewrite popens_app. cbn. lia.
Qed.

Lemma length_concat_sum {A} (ss : list (list A)) :
  length (concat ss) = sum_list (length <$> ss).
Proof.
  induction ss as [| s ss IH]; [done |].
  cbn [concat]. rewrite length_app, IH. done.
Qed.

Lemma sum_list_ones {A} (ys : list A) : sum_list ((λ _, 1%nat) <$> ys) = length ys.
Proof. induction ys as [| y ys IH]; [done |]. cbn. by rewrite IH. Qed.

Lemma index_unit_popens_run os self frc cmd_args files output w u w' :
  _index os self frc cmd_args files output w = (u, w') →
  ∃ evs, log w' = log w ++ evs ∧ (popens evs ≤ 1)%nat.
Proof.
  intros Hrun.
  destruct (index_unit_popens os self frc cmd_args files output w)
    as (evs & Hlog & Hn).
  rewrite Hrun in Hlog. by exists evs.
Qed.

Lemma index_body_popens (rec : index_fn) os self files frc split out cmd_args
    w ps w' :
  (∀ files' w1 ps' w2,
     rec files' frc split out [] w1 = (Ok ps', w2) →
     ∃ evs, log w2 = log w1 ++ evs ∧ (popens evs ≤ length ps')%nat) →
  index_body rec os self files frc split out cmd_args w = (Ok ps, w') →
  ∃ evs, log w' = log w ++ evs ∧ (popens evs ≤ length ps)%nat.
Proof.
  intros Hrec. unfold index_body. destruct (multi_folder os files).
  - intros Hrun. apply bind_ok_inv in Hrun as (ss & w1 & Hss & [= <- <-]).
    apply (mapM_popens _ length) in Hss as (_ & evs & Hlog & Hn).
    + exists evs. by rewrite length_concat_sum.
    + intros folder w2 s w3 _. apply Hrec.
  - destruct files as [| file0 files]; [done |]. intros Hrun.
    apply bind_ok_inv in Hrun as (h & w1 & Hh & Hrun).
    pose proof (get_videos_hash_ok _ _ _ _ Hh) as ->.
    destruct split; cbn [negb] in Hrun.
    + apply bind_ok_inv in Hrun as (outputs & w2 & Houts & Hrun).
      apply mapM_liftR_ok in Houts as [-> Houts].
      apply bind_ok_inv in Hrun as (units & w3 & Hunits & [= <- <-]).
      apply (mapM_popens _ (λ _, 1%nat)) in Hunits as (Hlen & evs & Hlog & Hn).
      * exists evs. split; [done |].
        rewrite sum_list_ones, Hlen, length_zip_with_r_eq in Hn; [done |].
        by apply Forall2_length in Houts.
      * intros fo w4 u w5 _. apply index_unit_popens_run.
    + apply bind_ok_inv in Hrun as (output & w2 & [= Hout <-] & Hrun).
      apply bind_ok_inv in Hrun as (u & w3 & Hunit & [= <- <-]).
      by apply index_unit_popens_run in Hunit.
Qed.

Lemma index_at_popens depth os self files frc split out cmd_args w ps w' :
  index_at depth os self files frc split out cmd_args w = (Ok ps, w') →
  ∃ evs, log w' = log w ++ evs ∧ (popens evs ≤ length ps)%nat.
Proof.
  revert files cmd_args w ps w'.
  induction depth as [| depth IH]; intros files cmd_args w ps w'; [done |].
  cbn [index_at]. apply index_body_popens. intros files' w1 ps' w2. apply IH.
Qed.

(** X17. A call of [index] that returns has started the tool at most
    once for each path it returns: at most once in joined mode on one
    folder, at most once per folder or per file otherwise. *)
Theorem index_starts_per_path os self files frc split out cmd_args w ps :
  (index os self files frc split out cmd_args w).1 = Ok ps →
  ∃ evs,
    log (index os self files frc split out cmd_args w).2 = log w ++ evs
    ∧ (popens evs ≤ length ps)%nat.
Proof.
  intros Hrun.
  destruct (index os self files frc split out cmd_args w) as [r w'] eqn:Hrun'.
  cbn [fst snd] in *. subst r. by apply index_at_popens in Hrun'.
Qed.

Lemma index_starts_per_path_witness :
  ∃ evs,
    log (index Sample.os_fifo Sample.tool [Sample.a; Sample.c; Sample.b]
           false true OF_None [] Sample.w0).2
    = log Sample.w0 ++ evs
    ∧ (popens evs ≤ 3)%nat.
Proof.
  apply (index_starts_per_path Sample.os_fifo Sample.tool
           [Sample.a; Sample.c; Sample.b] false true OF_None [] Sample.w0
           [ Path.of_str "/d/.vssource/a8c714da8b4ab0a1fc3b6de3ac472a80_a.dgi";
             Path.of_str "/d/.vssource/a8c714da8b4ab0a1fc3b6de3ac472a80_b.dgi";
             Path.of_str "/e/.vssource/2e7448edaf03d9a2d9a6ac1f46f6c3fe_c.dgi" ]).
  vm_compute. reflexivity.
Defined.

(** ** Opening what was indexed *)

Lemma call_source_func_log vs path kwargs w :
  log (call_source_func vs path kwargs w).2 = log w.
Proof.
  unfold call_source_func. by destruct (source_func vs path kwargs (fs w)).
Qed.

Lemma mapM_call_source_func_log vs kwargs (paths : list SPath) w :
  log (mapM (λ p, call_source_func vs (Path.to_str p) kwargs) paths w).2 = log w.
Proof.
  revert w. induction paths as [| p paths IH]; intros w; [done |].
  rewrite mapM_cons_run.
  pose proof (call_source_func_log vs (Path.to_str p) kwargs w) as Hp.
  destruct (call_source_func vs (Path.to_str p) kwargs w) as [[clip | e] w1];
    cbn [snd] in Hp; [| done].
  specialize (IH w1). revert IH.
  destruct (mapM (M := M) _ paths w1) as [[clips | e] w2]; cbn [snd];
    congruence.
Qed.

(** X18. For files of one folder, [ExternalIndexer.source] opens one
    clip and splices nothing, however many files it is given: when the
    index call returns, it returns the one joined index, and the clip is
    [initialize_clip] of what [source_func] makes of that path, in the
    world the index call left. *)
Theorem source_one_folder os self vs file format kwargs w ps :
  multi_folder os (SPath_of <$> file) = false →
  (index os self (SPath_of <$> file) false false OF_None [] w).1 = Ok ps →
  ∃ output,
    ps = [output]
    ∧ source os self vs file format kwargs w
      = (clip ← call_source_func vs (Path.to_str output) kwargs;
         liftR (initialize_clip vs clip format))
          (index os self (SPath_of <$> file) false false OF_None [] w).2.
Proof.
  intros Hone Hps.
  destruct (SPath_of <$> file) as [| file0 rest] eqn:Hfiles.
  { rewrite index_nil_run in Hps. discriminate Hps. }
  destruct (index_joined_ok _ _ _ _ _ _ _ _ _ Hone Hps)
    as (h & output & _ & _ & ->).
  exists output. split; [done |].
  unfold source. rewrite Hfiles, bind_run.
  destruct (index os self (file0 :: rest) false false OF_None [] w) as [r w1].
  cbn [fst snd] in *. subst r.
  rewrite !bind_run, mapM_cons_run.
  destruct (call_source_func vs (Path.to_str output) kwargs w1) as [[clip | e] w2];
    [| done].
  reflexivity.
Qed.

Lemma source_one_folder_witness :
  (source Sample.os_fifo Sample.tool Cases.decoder
     [AsStr "/d/b.mkv"; AsPath Sample.a] () () Sample.w0).1
  = Ok ["/d/.vssource/a8c714da8b4ab0a1fc3b6de3ac472a80_JOINED.dgi"].
Proof.
  destruct (source_one_folder Sample.os_fifo Sample.tool Cases.decoder
              [AsStr "/d/b.mkv"; AsPath Sample.a] () () Sample.w0
              [Cases.joined_idx])
    as (output & Hps & ->).
  - vm_compute. reflexivity.
  - vm_compute. reflexivity.
  - injection Hps as <-. vm_compute. reflexivity.
Defined.

(** X19. [ExternalIndexer.source] indexes without [force], whatever
    [self.force] is: over a joined index that is there and not empty it
    has the recorded names rewritten and starts no tool, so that opening
    the same files again does not index them again. *)
Theorem source_reuses_index os self vs file file0 rest format kwargs w h output i :
  SPath_of <$> file = file0 :: rest →
  multi_folder os (file0 :: rest) = false →
  (get_videos_hash (sorted_set (file0 :: rest)) w).1 = Ok h →
  get_video_idx_path self (Path.get_folder file0) h
    (AsStr (joined_tag (sorted_set (file0 :: rest)))) = Ok output →
  fs w !! output = Some i → is_dir i = false → st_size i ≠ 0%N →
  log (source os self vs file format kwargs w).2
  = log w ++ [EvRewrite output (sorted_set (file0 :: rest))].
Proof.
  intros Hfiles Hone Hh Hout Hi Hfile Hsize.
  unfold source. rewrite Hfiles, bind_run.
  rewrite (index_joined_reuse os self file0 rest OF_None [] w h output i)
    by done.
  rewrite bind_run. unfold rewrite_filenames.
  destruct (update_video_filenames self output _ (fs w)) as [[u | e] m];
    [| done].
  cbn [mret M_ret]. rewrite bind_run.
  set (w1 := {| fs := m; log := _ |}).
  pose proof (mapM_call_source_func_log vs kwargs [output] w1) as Hlog.
  revert Hlog.
  destruct (mapM (M := M) _ [output] w1) as [[clips | e] w2]; cbn [snd];
    intros Hlog; [| done].
  unfold liftR. cbn [snd]. by rewrite Hlog.
Qed.

Lemma source_reuses_index_witness :
  log (source Sample.os_fifo Sample.tool Cases.decoder
         [AsPath Sample.a; AsPath Sample.b] () () Cases.w_joined).2
  = [EvRewrite Cases.joined_idx [Sample.a; Sample.b]].
Proof.
  rewrite (source_reuses_index Sample.os_fifo Sample.tool Cases.decoder
             [AsPath Sample.a; AsPath Sample.b] Sample.a [Sample.b] () ()
             Cases.w_joined "a8c714da8b4ab0a1fc3b6de3ac472a80"
             Cases.joined_idx (Sample.file 100)).
  - vm_compute. reflexivity.
  - reflexivity.
  - vm_compute. reflexivity.
  - vm_compute. reflexivity.
  - vm_compute. reflexivity.
  - vm_compute. reflexivity.
  - reflexivity.
  - discriminate.
Defined.

(** X20. When a file of a one-folder list is missing,
    [ExternalIndexer.source] raises [FileNotFoundError] and leaves
    everything as it was: [source_func] is not called, whatever decoder it
    is, and nothing is indexed. *)
Theorem source_missing_file os self vs file f format kwargs w :
  multi_folder os (SPath_of <$> file) = false →
  f ∈ SPath_of <$> file → fs w !! f = None →
  source os self vs file format kwargs w = (Raise FileNotFoundError, w).
Proof.
  intros Hone Hin Hnone. unfold source. rewrite bind_run, index_unfold.
  unfold index_body. rewrite Hone.
  destruct (SPath_of <$> file) as [| file0 rest];
    [exfalso; exact (proj1 (elem_of_nil f) Hin) |].
  rewrite bind_run.
  by rewrite (get_videos_hash_missing _ f) by (by try apply elem_of_sorted_set).
Qed.

Lemma source_missing_file_witness :
  source Sample.os_fifo Sample.tool Cases.decoder
    [AsPath Sample.a; AsStr "/d/gone.mkv"] () () Sample.w0
  = (Raise FileNotFoundError, Sample.w0).
Proof.
  apply (source_missing_file Sample.os_fifo Sample.tool Cases.decoder
           [AsPath Sample.a; AsStr "/d/gone.mkv"] (Path.of_str "/d/gone.mkv")).
  - vm_compute. reflexivity.
  - right. left.
  - vm_compute. reflexivity.
Defined.

